(** * One-step SARSA worker (mlpack, reinforcement_learning/worker)

    A shallow embedding of [OneStepSarsaWorker::Step] and [Reset] from
    [one_step_sarsa_worker.hpp], with the properties of one call and of
    sequences of calls.

    The worker is a class template over its collaborators (environment,
    network, optimizer, behaviour policy); each collaborator is a type class
    here and every definition is generic in them.  C++ [double] is the class
    [Double]: the operations the worker uses ([+], [*], unary [-], [<]) and
    nothing else, so that IEEE binary64 ([PrimFloat]) is an instance.
    [size_t] is [Z] with the wrap-around at [2^64] written out. *)

From Stdlib Require Import ZArith Lia Bool List Floats.
From stdpp Require Import base numbers list.

Set Warnings "-inexact-float".

Local Open Scope Z_scope.

(** ** Undefined behaviour and exceptions

    [Step] has no error surface of its own; what can go wrong is an access out
    of the range of a container, a modulo by zero, or Armadillo refusing two
    matrices of different shape.  The embedding stops at the first of them. *)

Inductive Fault : Type :=
  | PendingOutOfRange    (* pending[pendingIndex] past pending.size() *)
  | VecIndexOutOfRange   (* actionValue[a] past the vector's length *)
  | ShapeMismatch        (* totalGradients += gradients of another shape *)
  | ModuloByZero.        (* totalSteps % 0 *)

Inductive Outcome (A : Type) : Type :=
  | Done (a : A)
  | Undefined (f : Fault).

Arguments Done {A} a.
Arguments Undefined {A} f.

Definition bind {A B : Type} (c : Outcome A) (k : A -> Outcome B) : Outcome B :=
  match c with
  | Done a => k a
  | Undefined f => Undefined f
  end.

Notation "'do' x <- c ; k" := (bind c (fun x => k))
  (at level 10, x name, c at level 100, k at level 200).

(** ** [size_t] *)

Definition size_t_modulus : Z := 2 ^ 64.

Definition wrap (z : Z) : Z := z mod size_t_modulus.

Definition is_size_t (z : Z) : Prop := 0 <= z < size_t_modulus.

(** ** [double] *)

Class Double (D : Type) : Type := {
  d_zero : D;
  d_add : D -> D -> D;
  d_mul : D -> D -> D;
  d_opp : D -> D;
  d_ltb : D -> D -> bool
}.

(** [std::max(a, b)] is [(a < b) ? b : a] and [std::min(a, b)] is
    [(b < a) ? b : a]. *)
Definition std_max {D} `{Double D} (a b : D) : D := if d_ltb a b then b else a.
Definition std_min {D} `{Double D} (a b : D) : D := if d_ltb b a then b else a.

(** The lambda handed to [totalGradients.transform]. *)
Definition clamp {D} `{Double D} (limit : D) (gradient : D) : D :=
  std_min (std_max gradient (d_opp limit)) limit.

(** ** Armadillo vectors and matrices *)

(** [arma::colvec]: [v[i]] is unchecked in Armadillo, so an index past the end
    is undefined. *)
Definition vec_get {D} (v : list D) (i : nat) : Outcome D :=
  match v !! i with
  | Some x => Done x
  | None => Undefined VecIndexOutOfRange
  end.

Definition vec_set {D} (v : list D) (i : nat) (x : D) : Outcome (list D) :=
  if (i <? length v)%nat then Done (<[i := x]> v) else Undefined VecIndexOutOfRange.

(** [arma::mat]: its two dimensions and its memory, column after column. *)
Record mat (D : Type) : Type := Mat {
  n_rows : nat;
  n_cols : nat;
  mem : list D
}.

Arguments Mat {D} _ _ _.
Arguments n_rows {D} _.
Arguments n_cols {D} _.
Arguments mem {D} _.

Definition mat_zeros {D} `{Double D} (r c : nat) : mat D :=
  Mat r c (replicate (r * c) d_zero).

(** [A += B]: Armadillo throws when the shapes differ. *)
Definition mat_add {D} `{Double D} (A B : mat D) : Outcome (mat D) :=
  if ((n_rows A =? n_rows B)%nat && (n_cols A =? n_cols B)%nat)%bool
  then Done (Mat (n_rows A) (n_cols A) (zip_with d_add (mem A) (mem B)))
  else Undefined ShapeMismatch.

(** [A.transform(f)]: [f] on every element, in place. *)
Definition mat_transform {D} (f : D -> D) (A : mat D) : mat D :=
  Mat (n_rows A) (n_cols A) (f <$> mem A).

(** A matrix holds [n_rows * n_cols] elements. *)
Definition mat_wf {D} (A : mat D) : Prop :=
  length (mem A) = (n_rows A * n_cols A)%nat.

(** [acc += g] for each [g] of [gs] in turn. *)
Fixpoint mat_sum {D} `{Double D} (acc : mat D) (gs : list (mat D)) : Outcome (mat D) :=
  match gs with
  | [] => Done acc
  | g :: gs => do acc <- mat_add acc g; mat_sum acc gs
  end.

(** ** The collaborators *)

(** [EnvironmentType::Action] is an enumeration whose last enumerator, [size],
    counts the actions; the worker uses it as the mark of no action. *)
Definition ActionType : Type := nat.

(** [EnvironmentType]: [Sample(state, action, nextState)] returns the reward
    and may advance the environment object; [State::Encode()]. *)
Class Environment (D StateType EnvironmentType : Type) : Type := {
  Action_size : ActionType;
  Encode : StateType -> list D;
  env_Sample : EnvironmentType -> StateType -> ActionType ->
               D * StateType * EnvironmentType;
  IsTerminal : EnvironmentType -> StateType -> bool
}.

(** [NetworkType]: none of [Predict], [Forward] and [Backward] is const:
    [Forward] keeps what [Backward] needs inside the network.
    [Parameters()] returns a reference; [set_Parameters] is a write through
    it. *)
Class Network (D NetworkType : Type) : Type := {
  Predict : NetworkType -> list D -> list D * NetworkType;
  Forward : NetworkType -> list D -> list D * NetworkType;
  Backward : NetworkType -> list D -> list D -> mat D * NetworkType;
  Parameters : NetworkType -> mat D;
  set_Parameters : NetworkType -> mat D -> NetworkType
}.

(** [PolicyType]: [Sample] draws from the random source [Rng] of the process
    and leaves the policy object alone; [Anneal] moves its schedule. *)
Class Policy (D PolicyType Rng : Type) : Type := {
  pol_Sample : PolicyType -> list D -> bool -> Rng -> ActionType * Rng;
  Anneal : PolicyType -> PolicyType
}.

(** The optimizer's update policy: [Update(iterate, stepSize, gradient)]
    changes the iterate in place and its own state. *)
Class Updater (D UpdaterType : Type) : Type := {
  Update : UpdaterType -> mat D -> D -> mat D -> mat D * UpdaterType
}.

(** ** The worker's data *)

(** [TrainingConfig]: the three counts are [size_t], the rest [double]. *)
Record TrainingConfig (D : Type) : Type := {
  StepLimit : Z;
  UpdateInterval : Z;
  Discount : D;
  GradientLimit : D;
  StepSize : D;
  TargetNetworkSyncInterval : Z
}.

Arguments StepLimit {D} _.
Arguments UpdateInterval {D} _.
Arguments Discount {D} _.
Arguments GradientLimit {D} _.
Arguments StepSize {D} _.
Arguments TargetNetworkSyncInterval {D} _.

(** [SarsaWorkerTransitionType]: what [Step] stores in [pending]. *)
Record Transition (D StateType : Type) : Type := {
  tr_state : StateType;
  tr_action : ActionType;
  tr_reward : D;
  tr_nextState : StateType;
  tr_nextAction : ActionType
}.

Arguments tr_state {D StateType} _.
Arguments tr_action {D StateType} _.
Arguments tr_reward {D StateType} _.
Arguments tr_nextState {D StateType} _.
Arguments tr_nextAction {D StateType} _.

Section Worker.

Context {D StateType EnvironmentType NetworkType PolicyType UpdaterType Rng : Type}.
Context `{!Double D}
        `{!Environment D StateType EnvironmentType}
        `{!Network D NetworkType}
        `{!Policy D PolicyType Rng}
        `{!Updater D UpdaterType}.

(** The members [Step] reaches through [this->] (they are declared by
    [WorkerBase]) and the worker's own [action].  [pending] is a
    [std::vector]: [Step] writes its elements and reads its [size()], and never
    changes its length. *)
Record Worker : Type := {
  state : StateType;
  action : ActionType;
  network : NetworkType;
  environment : EnvironmentType;
  config : TrainingConfig D;
  deterministic : bool;
  updatePolicy : UpdaterType;
  episodeReturn : D;
  steps : Z;
  pending : list (Transition D StateType);
  pendingIndex : Z
}.

(** What [Step] receives by reference, and the random source its collaborators
    draw from. *)
Record Shared : Type := {
  learningNetwork : NetworkType;
  targetNetwork : NetworkType;
  totalSteps : Z;
  policy : PolicyType;
  totalReward : D;
  rng : Rng
}.

(** Assignments to one member. *)
Definition set_state (v : StateType) (w : Worker) : Worker :=
  {| state := v; action := action w; network := network w;
     environment := environment w; config := config w;
     deterministic := deterministic w; updatePolicy := updatePolicy w;
     episodeReturn := episodeReturn w; steps := steps w;
     pending := pending w; pendingIndex := pendingIndex w |}.

Definition set_action (v : ActionType) (w : Worker) : Worker :=
  {| state := state w; action := v; network := network w;
     environment := environment w; config := config w;
     deterministic := deterministic w; updatePolicy := updatePolicy w;
     episodeReturn := episodeReturn w; steps := steps w;
     pending := pending w; pendingIndex := pendingIndex w |}.

Definition set_network (v : NetworkType) (w : Worker) : Worker :=
  {| state := state w; action := action w; network := v;
     environment := environment w; config := config w;
     deterministic := deterministic w; updatePolicy := updatePolicy w;
     episodeReturn := episodeReturn w; steps := steps w;
     pending := pending w; pendingIndex := pendingIndex w |}.

Definition set_environment (v : EnvironmentType) (w : Worker) : Worker :=
  {| state := state w; action := action w; network := network w;
     environment := v; config := config w;
     deterministic := deterministic w; updatePolicy := updatePolicy w;
     episodeReturn := episodeReturn w; steps := steps w;
     pending := pending w; pendingIndex := pendingIndex w |}.

Definition set_updatePolicy (v : UpdaterType) (w : Worker) : Worker :=
  {| state := state w; action := action w; network := network w;
     environment := environment w; config := config w;
     deterministic := deterministic w; updatePolicy := v;
     episodeReturn := episodeReturn w; steps := steps w;
     pending := pending w; pendingIndex := pendingIndex w |}.

Definition set_episodeReturn (v : D) (w : Worker) : Worker :=
  {| state := state w; action := action w; network := network w;
     environment := environment w; config := config w;
     deterministic := deterministic w; updatePolicy := updatePolicy w;
     episodeReturn := v; steps := steps w;
     pending := pending w; pendingIndex := pendingIndex w |}.

Definition set_steps (v : Z) (w : Worker) : Worker :=
  {| state := state w; action := action w; network := network w;
     environment := environment w; config := config w;
     deterministic := deterministic w; updatePolicy := updatePolicy w;
     episodeReturn := episodeReturn w; steps := v;
     pending := pending w; pendingIndex := pendingIndex w |}.

Definition set_pending (v : list (Transition D StateType)) (w : Worker) : Worker :=
  {| state := state w; action := action w; network := network w;
     environment := environment w; config := config w;
     deterministic := deterministic w; updatePolicy := updatePolicy w;
     episodeReturn := episodeReturn w; steps := steps w;
     pending := v; pendingIndex := pendingIndex w |}.

Definition set_pendingIndex (v : Z) (w : Worker) : Worker :=
  {| state := state w; action := action w; network := network w;
     environment := environment w; config := config w;
     deterministic := deterministic w; updatePolicy := updatePolicy w;
     episodeReturn := episodeReturn w; steps := steps w;
     pending := pending w; pendingIndex := v |}.

Definition set_learningNetwork (v : NetworkType) (s : Shared) : Shared :=
  {| learningNetwork := v; targetNetwork := targetNetwork s;
     totalSteps := totalSteps s; policy := policy s;
     totalReward := totalReward s; rng := rng s |}.

Definition set_targetNetwork (v : NetworkType) (s : Shared) : Shared :=
  {| learningNetwork := learningNetwork s; targetNetwork := v;
     totalSteps := totalSteps s; policy := policy s;
     totalReward := totalReward s; rng := rng s |}.

Definition set_totalSteps (v : Z) (s : Shared) : Shared :=
  {| learningNetwork := learningNetwork s; targetNetwork := targetNetwork s;
     totalSteps := v; policy := policy s;
     totalReward := totalReward s; rng := rng s |}.

Definition set_policy (v : PolicyType) (s : Shared) : Shared :=
  {| learningNetwork := learningNetwork s; targetNetwork := targetNetwork s;
     totalSteps := totalSteps s; policy := v;
     totalReward := totalReward s; rng := rng s |}.

Definition set_totalReward (v : D) (s : Shared) : Shared :=
  {| learningNetwork := learningNetwork s; targetNetwork := targetNetwork s;
     totalSteps := totalSteps s; policy := policy s;
     totalReward := v; rng := rng s |}.

Definition set_rng (v : Rng) (s : Shared) : Shared :=
  {| learningNetwork := learningNetwork s; targetNetwork := targetNetwork s;
     totalSteps := totalSteps s; policy := policy s;
     totalReward := totalReward s; rng := v |}.

(** ** [Reset] *)

(** Modelled from the spec: [WorkerBase::Reset], which [worker_base.hpp]
    defines and the sources do not include.  Section 4.4: the episode return
    goes to 0, the step-within-episode counter to 0 and [pendingIndex] to 0;
    the buffer is not cleared and the local network is left alone. *)
Definition base_Reset (w : Worker) : Worker :=
  set_pendingIndex 0 (set_steps 0 (set_episodeReturn d_zero w)).

(** [OneStepSarsaWorker::Reset]. *)
Definition Reset (w : Worker) : Worker :=
  set_action Action_size (base_Reset w).

(** ** [Step]: the interaction with the environment *)

(** The locals of [Step] that outlive the interaction. *)
Record Interaction : Type := {
  reward : D;
  nextState : StateType;
  nextAction : ActionType;
  terminal : bool
}.

(** An invalid action means the beginning of an episode: the first action is
    sampled from the local network's estimate at the current state. *)
Definition begin_episode (w : Worker) (s : Shared) : Worker * Shared :=
  if (action w =? Action_size)%nat then
    let p := Predict (network w) (Encode (state w)) in
    let a := pol_Sample (policy s) p.1 (deterministic w) (rng s) in
    (set_action a.1 (set_network p.2 w), set_rng a.2 s)
  else (w, s).

Definition interact (w0 : Worker) (s0 : Shared) : Interaction * Worker * Shared :=
  let ws := begin_episode w0 s0 in
  let w := ws.1 in
  let s := ws.2 in
  let e := env_Sample (environment w) (state w) (action w) in
  let w := set_environment e.2 w in
  let p := Predict (network w) (Encode e.1.2) in
  let w := set_network p.2 w in
  let a := pol_Sample (policy s) p.1 (deterministic w) (rng s) in
  let s := set_rng a.2 s in
  let w := set_episodeReturn (d_add (episodeReturn w) e.1.1) w in
  let w := set_steps (wrap (steps w + 1)) w in
  ({| reward := e.1.1;
      nextState := e.1.2;
      nextAction := a.1;
      terminal := IsTerminal (environment w) e.1.2
                  || (StepLimit (config w) <=? steps w) |},
   w, s).

(** ** [Step] in deterministic mode *)

Definition Step_deterministic (i : Interaction) (w : Worker) (s : Shared)
  : bool * Worker * Shared :=
  if terminal i then
    let s := set_totalReward (episodeReturn w) s in
    let w := Reset w in
    let w := set_network (learningNetwork s) w in
    (true, w, s)
  else
    (false, set_action (nextAction i) (set_state (nextState i) w), s).

(** ** [Step] in stochastic mode *)

(** [this->pending[this->pendingIndex++] = {state, action, reward, nextState,
    nextAction}]. *)
Definition append_pending (i : Interaction) (w : Worker) : Outcome Worker :=
  if (0 <=? pendingIndex w) && (pendingIndex w <? Z.of_nat (length (pending w)))
  then
    Done (set_pendingIndex (wrap (pendingIndex w + 1))
           (set_pending
              (<[Z.to_nat (pendingIndex w) :=
                   {| tr_state := state w;
                      tr_action := action w;
                      tr_reward := reward i;
                      tr_nextState := nextState i;
                      tr_nextAction := nextAction i |}]> (pending w))
              w))
  else Undefined PendingOutOfRange.

(** The value the target is bootstrapped from: 0 when the step is terminal and
    [i == pending.size() - 1], else the target network's value at
    [nextAction]. *)
Definition bootstrap_value (term : bool) (size i : Z)
    (transition : Transition D StateType) (actionValue : list D) : Outcome D :=
  if negb (term && (i =? wrap (size - 1)))
  then vec_get actionValue (tr_nextAction transition)
  else Done d_zero.

Definition target_value (cfg : TrainingConfig D) (term : bool) (size i : Z)
    (transition : Transition D StateType) (actionValue : list D) : Outcome D :=
  do targetActionValue <- bootstrap_value term size i transition actionValue;
  Done (d_add (tr_reward transition) (d_mul (Discount cfg) targetActionValue)).

(** The body of the loop up to [Backward]: the gradient of one transition, the
    local network and the target network after the calls. *)
Definition transition_gradient (cfg : TrainingConfig D) (term : bool) (size i : Z)
    (transition : Transition D StateType) (net tnet : NetworkType)
  : Outcome (mat D * NetworkType * NetworkType) :=
  let p := Predict tnet (Encode (tr_nextState transition)) in
  do targetActionValue <- target_value cfg term size i transition p.1;
  let input := Encode (tr_state transition) in
  let f := Forward net (Encode (tr_state transition)) in
  do actionValue <- vec_set f.1 (tr_action transition) targetActionValue;
  let b := Backward f.2 input actionValue in
  Done (b.1, b.2, p.2).

(** [for (size_t i = 0; i < this->pending.size(); ++i)], entered with the
    elements from [i] on still to visit.  [i] stays below the vector's size,
    so [++i] does not wrap. *)
Fixpoint flush_loop (cfg : TrainingConfig D) (term : bool) (size i : Z)
    (rest : list (Transition D StateType)) (net tnet : NetworkType)
    (totalGradients : mat D) : Outcome (mat D * NetworkType * NetworkType) :=
  match rest with
  | [] => Done (totalGradients, net, tnet)
  | transition :: rest =>
      do g <- transition_gradient cfg term size i transition net tnet;
      do totalGradients <- mat_add totalGradients g.1.1;
      flush_loop cfg term size (i + 1) rest g.1.2 g.2 totalGradients
  end.

(** The body of [if (terminal || pendingIndex >= UpdateInterval)]. *)
Definition flush (term : bool) (w : Worker) (s : Shared) : Outcome (Worker * Shared) :=
  let totalGradients :=
    mat_zeros (n_rows (Parameters (learningNetwork s)))
              (n_cols (Parameters (learningNetwork s))) in
  do r <- flush_loop (config w) term (Z.of_nat (length (pending w))) 0
            (pending w) (network w) (targetNetwork s) totalGradients;
  let w := set_network r.1.2 w in
  let s := set_targetNetwork r.2 s in
  let totalGradients := mat_transform (clamp (GradientLimit (config w))) r.1.1 in
  let u := Update (updatePolicy w) (Parameters (learningNetwork s))
             (StepSize (config w)) totalGradients in
  let w := set_updatePolicy u.2 w in
  let s := set_learningNetwork (set_Parameters (learningNetwork s) u.1) s in
  let w := set_network (learningNetwork s) w in
  let w := set_pendingIndex 0 w in
  Done (w, s).

Definition flush_due (term : bool) (w : Worker) : bool :=
  term || (UpdateInterval (config w) <=? pendingIndex w).

(** [if (totalSteps % TargetNetworkSyncInterval == 0) targetNetwork =
    learningNetwork]. *)
Definition sync_due (w : Worker) (s : Shared) : bool :=
  totalSteps s mod TargetNetworkSyncInterval (config w) =? 0.

Definition sync_target (w : Worker) (s : Shared) : Outcome Shared :=
  if TargetNetworkSyncInterval (config w) =? 0 then Undefined ModuloByZero
  else if sync_due w s then Done (set_targetNetwork (learningNetwork s) s)
  else Done s.

Definition anneal (s : Shared) : Shared := set_policy (Anneal (policy s)) s.

(** The end of [Step] in stochastic mode. *)
Definition finish (i : Interaction) (w : Worker) (s : Shared) : bool * Worker * Shared :=
  if terminal i then
    let s := set_totalReward (episodeReturn w) s in
    let w := Reset w in
    (true, w, s)
  else
    (false, set_action (nextAction i) (set_state (nextState i) w), s).

Definition count_step (s : Shared) : Shared :=
  set_totalSteps (wrap (totalSteps s + 1)) s.

Definition Step_stochastic (i : Interaction) (w : Worker) (s : Shared)
  : Outcome (bool * Worker * Shared) :=
  let s := count_step s in
  do w <- append_pending i w;
  do ws <- (if flush_due (terminal i) w then flush (terminal i) w s else Done (w, s));
  do s <- sync_target ws.1 ws.2;
  let s := anneal s in
  Done (finish i ws.1 s).

(** ** [Step] *)

Definition Step (w : Worker) (s : Shared) : Outcome (bool * Worker * Shared) :=
  let r := interact w s in
  if deterministic r.1.2
  then Done (Step_deterministic r.1.1 r.1.2 r.2)
  else Step_stochastic r.1.1 r.1.2 r.2.

(** ** Sequences of calls *)

(** The environment's answer to a call: the sample drawn from the worker's
    state and its action (the first action of an episode once selected). *)
Definition env_answer (w : Worker) (s : Shared) : D * StateType * EnvironmentType :=
  let w1 := (begin_episode w s).1 in
  env_Sample (environment w1) (state w1) (action w1).

(** A worker after any number of calls of [Step], each with whatever the other
    workers have made of the shared objects by then. *)
Inductive reachable (w0 : Worker) : Worker -> Prop :=
  | reach_start : reachable w0 w0
  | reach_Step w s b w' s' :
      reachable w0 w -> Step w s = Done (b, w', s') -> reachable w0 w'.

(** [episode_steps w0 k w]: [k] calls in a row from [w0], none of which ended
    the episode. *)
Inductive episode_steps (w0 : Worker) : nat -> Worker -> Prop :=
  | episode_start : episode_steps w0 0 w0
  | episode_Step k w s w' s' :
      episode_steps w0 k w -> Step w s = Done (false, w', s') ->
      episode_steps w0 (S k) w'.

(** The workers of one run and what they share.  A call of [Step] is one
    transition of the system; the schedule names the worker of each call. *)
Record System : Type := {
  workers : list Worker;
  shared : Shared
}.

Definition sys_Step (k : nat) (sys : System) : Outcome System :=
  match workers sys !! k with
  | Some w =>
      do r <- Step w (shared sys);
      Done {| workers := <[k := r.1.2]> (workers sys); shared := r.2 |}
  | None => Done sys
  end.

Fixpoint sys_run (schedule : list nat) (sys : System) : Outcome System :=
  match schedule with
  | [] => Done sys
  | k :: schedule => do sys <- sys_Step k sys; sys_run schedule sys
  end.

(** Whether call [k] of a schedule is a call in stochastic mode. *)
Definition stochastic (ws : list Worker) (k : nat) : bool :=
  match ws !! k with
  | Some w => negb (deterministic w)
  | None => false
  end.

Fixpoint stochastic_calls (ws : list Worker) (schedule : list nat) : nat :=
  match schedule with
  | [] => 0
  | k :: schedule =>
      ((if stochastic ws k then 1 else 0) + stochastic_calls ws schedule)%nat
  end.

(** ** What a flush visits *)

(** One record per iteration of the flush loop: the index, the training target
    and the gradient of the transition. *)
Record Visit : Type := {
  v_index : Z;
  v_target : D;
  v_gradient : mat D
}.

Fixpoint flush_visits (cfg : TrainingConfig D) (term : bool) (size i : Z)
    (rest : list (Transition D StateType)) (net tnet : NetworkType)
  : Outcome (list Visit) :=
  match rest with
  | [] => Done []
  | transition :: rest =>
      do t <- target_value cfg term size i transition
                (Predict tnet (Encode (tr_nextState transition))).1;
      do g <- transition_gradient cfg term size i transition net tnet;
      do vs <- flush_visits cfg term size (i + 1) rest g.1.2 g.2;
      Done ({| v_index := i; v_target := t; v_gradient := g.1.1 |} :: vs)
  end.

(** The visits of the flush [Step] runs on worker [w]. *)
Definition code_flush_visits (term : bool) (w : Worker) (s : Shared)
  : Outcome (list Visit) :=
  flush_visits (config w) term (Z.of_nat (length (pending w))) 0
    (pending w) (network w) (targetNetwork s).

(** Following the spec's words (section 4.2): the flush is over the
    [n = pendingIndex] buffered transitions, in insertion order, and the last
    buffered one is the one at index [n - 1]. *)
Definition spec_flush_visits (term : bool) (w : Worker) (s : Shared)
  : Outcome (list Visit) :=
  flush_visits (config w) term (pendingIndex w) 0
    (take (Z.to_nat (pendingIndex w)) (pending w)) (network w) (targetNetwork s).

(** The worker and the shared objects at the point where [Step], in stochastic
    mode, decides whether to flush. *)
Definition before_flush (w : Worker) (s : Shared) : Outcome (Interaction * Worker * Shared) :=
  let r := interact w s in
  do w1 <- append_pending r.1.1 r.1.2;
  Done (r.1.1, w1, count_step r.2).

(** The buffer between two calls: [pendingIndex] is a valid index of
    [pending], whose capacity is [UpdateInterval] (a [size_t]). *)
Definition buffer_ok (w : Worker) : Prop :=
  0 <= pendingIndex w < UpdateInterval (config w) /\
  Z.of_nat (length (pending w)) = UpdateInterval (config w) /\
  UpdateInterval (config w) < size_t_modulus.

(** All the workers of a run are given one [TrainingConfig]; this is the part
    of it the shared target network depends on. *)
Definition same_interval (I : Z) (w : Worker) : Prop :=
  TargetNetworkSyncInterval (config w) = I.

(** ** When a call is defined *)

(** What the accesses of [Step] need of the collaborators: a vector of action
    values has one entry per action, a sampled action is an action, and
    parameters and gradients have one shape, [r] by [c]. *)
Record collaborators_ok (r c : nat) : Prop := {
  Predict_length : forall net x, length (Predict net x).1 = Action_size;
  Forward_length : forall net x, length (Forward net x).1 = Action_size;
  Sample_valid : forall (p : PolicyType) av det (g : Rng),
    ((pol_Sample p av det g).1 < Action_size)%nat;
  Parameters_shape : forall net,
    n_rows (Parameters net) = r /\ n_cols (Parameters net) = c;
  Backward_shape : forall net x t,
    n_rows (Backward net x t).1 = r /\ n_cols (Backward net x t).1 = c
}.

Definition transition_ok (tr : Transition D StateType) : Prop :=
  (tr_action tr < Action_size)%nat /\ (tr_nextAction tr < Action_size)%nat.

(** A worker between two calls: the buffer as [buffer_ok] says, holding
    actions only; the current action an action or the mark of none; a sync
    interval that is not 0. *)
Definition worker_ok (w : Worker) : Prop :=
  buffer_ok w /\
  (action w <= Action_size)%nat /\
  Forall transition_ok (pending w) /\
  TargetNetworkSyncInterval (config w) <> 0.

(** ** Episodes and the buffer, call by call *)

(** The transition a call in stochastic mode stores in [pending]. *)
Definition stored_transition (w : Worker) (s : Shared) : Transition D StateType :=
  {| tr_state := state (begin_episode w s).1;
     tr_action := action (begin_episode w s).1;
     tr_reward := reward (interact w s).1.1;
     tr_nextState := nextState (interact w s).1.1;
     tr_nextAction := nextAction (interact w s).1.1 |}.

(** [episode_rewards w0 rs w]: calls in a row from [w0], none of which ended
    the episode, with the rewards [rs] of their steps, in order. *)
Inductive episode_rewards (w0 : Worker) : list D -> Worker -> Prop :=
  | rewards_start : episode_rewards w0 [] w0
  | rewards_Step rs w s w' s' :
      episode_rewards w0 rs w -> Step w s = Done (false, w', s') ->
      episode_rewards w0 (rs ++ [(env_answer w s).1.1]) w'.

(** [buffered w0 trs w]: calls in stochastic mode in a row from [w0], none of
    which ended the episode or filled the buffer, with the transitions [trs]
    they stored, in order. *)
Inductive buffered (w0 : Worker) : list (Transition D StateType) -> Worker -> Prop :=
  | buffered_start : buffered w0 [] w0
  | buffered_Step trs w s w' s' :
      buffered w0 trs w ->
      deterministic w = false ->
      Step w s = Done (false, w', s') ->
      wrap (pendingIndex w + 1) < UpdateInterval (config w) ->
      buffered w0 (trs ++ [stored_transition w s]) w'.

(** ** [Step] in stochastic mode, statement by statement

    The statements of [Step] after the branch on [deterministic], as the
    points of a machine; a point is named after the statement that is executed
    next.  One step executes that statement on the shared objects as they are
    at that moment: between two steps of a call other workers may run. *)
Inductive Point : Type :=
  | AtCount             (* 177-178: totalSteps++ *)
  | AtStore             (* 180-187: pending[pendingIndex++] = {...} *)
  | AtFlushTest         (* 189: if (terminal || pendingIndex >= UpdateInterval) *)
  | AtGradients         (* 191-228: the accumulator, the loop, the clamp *)
  | AtUpdate            (* 230-237: Update(learningNetwork.Parameters(), ...) *)
  | AtRefresh           (* 239-240: this->network = learningNetwork *)
  | AtClear             (* 242: this->pendingIndex = 0 *)
  | AtSync              (* 245-250: the test of totalSteps and the copy *)
  | AtAnneal            (* 252: policy.Anneal() *)
  | AtEnd               (* 254-262: the report and Reset, or the advance *)
  | Returned (b : bool).

(** The call in progress: where it is, the locals of the interaction, the
    local [totalGradients] of the flush block, and the worker. *)
Record Frame : Type := {
  pc : Point;
  locals : Interaction;
  totalGradients : mat D;
  self : Worker
}.

Definition at_point (p : Point) (f : Frame) : Frame :=
  {| pc := p; locals := locals f; totalGradients := totalGradients f;
     self := self f |}.

Definition with_self (w : Worker) (f : Frame) : Frame :=
  {| pc := pc f; locals := locals f; totalGradients := totalGradients f;
     self := w |}.

(** The frame at line 177, after the interaction; [totalGradients] does not
    exist before the flush block declares it. *)
Definition enter (i : Interaction) (w : Worker) : Frame :=
  {| pc := AtCount; locals := i; totalGradients := mat_zeros 0 0; self := w |}.

Definition step (f : Frame) (s : Shared) : Outcome (Frame * Shared) :=
  let i := locals f in
  let w := self f in
  match pc f with
  | AtCount => Done (at_point AtStore f, count_step s)
  | AtStore =>
      do w <- append_pending i w;
      Done (at_point AtFlushTest (with_self w f), s)
  | AtFlushTest =>
      Done (at_point (if flush_due (terminal i) w then AtGradients else AtSync) f, s)
  | AtGradients =>
      let zeros :=
        mat_zeros (n_rows (Parameters (learningNetwork s)))
                  (n_cols (Parameters (learningNetwork s))) in
      do r <- flush_loop (config w) (terminal i) (Z.of_nat (length (pending w))) 0
                (pending w) (network w) (targetNetwork s) zeros;
      Done ({| pc := AtUpdate; locals := i;
               totalGradients :=
                 mat_transform (clamp (GradientLimit (config w))) r.1.1;
               self := set_network r.1.2 w |},
            set_targetNetwork r.2 s)
  | AtUpdate =>
      let u := Update (updatePolicy w) (Parameters (learningNetwork s))
                 (StepSize (config w)) (totalGradients f) in
      Done (at_point AtRefresh (with_self (set_updatePolicy u.2 w) f),
            set_learningNetwork (set_Parameters (learningNetwork s) u.1) s)
  | AtRefresh =>
      Done (at_point AtClear (with_self (set_network (learningNetwork s) w) f), s)
  | AtClear =>
      Done (at_point AtSync (with_self (set_pendingIndex 0 w) f), s)
  | AtSync =>
      do s <- sync_target w s;
      Done (at_point AtAnneal f, s)
  | AtAnneal => Done (at_point AtEnd f, anneal s)
  | AtEnd =>
      let r := finish i w s in
      Done (at_point (Returned r.1.1) (with_self r.1.2 f), r.2)
  | Returned _ => Done (f, s)
  end.

(** The points from which the test of the counter is still to come. *)
Definition before_sync (p : Point) : bool :=
  match p with
  | AtAnneal | AtEnd | Returned _ => false
  | _ => true
  end.

(** A call that no other worker interrupts: the frame and the shared objects
    before each statement, and those it returns with. *)
Fixpoint run_call (fuel : nat) (f : Frame) (s : Shared)
  : Outcome (list (Frame * Shared)) :=
  match fuel with
  | O => Done [(f, s)]
  | S fuel =>
      match pc f with
      | Returned _ => Done [(f, s)]
      | _ =>
          do fs <- step f s;
          do rest <- run_call fuel fs.1 fs.2;
          Done ((f, s) :: rest)
      end
  end.

(** No path through [Step] has more than ten of these statements. *)
Definition Step_points (w : Worker) (s : Shared) : Outcome (list (Frame * Shared)) :=
  let r := interact w s in
  run_call 10 (enter r.1.1 r.1.2) r.2.

(** A call among the statements of other workers: its own statements in
    order, and between any two of them whatever the others do to the shared
    objects, of which [R] says what is known. *)
Inductive call_steps (R : Shared -> Shared -> Prop)
  : Frame -> Shared -> Frame -> Shared -> Prop :=
  | call_here f s : call_steps R f s f s
  | call_own f s f1 s1 f' s' :
      step f s = Done (f1, s1) -> call_steps R f1 s1 f' s' ->
      call_steps R f s f' s'
  | call_others f s s1 f' s' :
      R s s1 -> call_steps R f s1 f' s' -> call_steps R f s f' s'.

(** ** Workers running at once

    A worker is between two calls or inside a call in stochastic mode.  The
    schedule names the worker that executes next: the interaction (and, in
    deterministic mode, the rest of the call) when it is between two calls,
    one statement otherwise. *)
Inductive Thread : Type :=
  | Idle (w : Worker)
  | Running (f : Frame).

Record Threads : Type := {
  threads : list Thread;
  world : Shared
}.

Definition settle (f : Frame) : Thread :=
  match pc f with
  | Returned _ => Idle (self f)
  | _ => Running f
  end.

Definition thread_step (k : nat) (t : Threads) : Outcome Threads :=
  match threads t !! k with
  | Some (Idle w) =>
      let r := interact w (world t) in
      if deterministic r.1.2 then
        let d := Step_deterministic r.1.1 r.1.2 r.2 in
        Done {| threads := <[k := Idle d.1.2]> (threads t); world := d.2 |}
      else
        Done {| threads := <[k := Running (enter r.1.1 r.1.2)]> (threads t);
                world := r.2 |}
  | Some (Running f) =>
      do fs <- step f (world t);
      Done {| threads := <[k := settle fs.1]> (threads t); world := fs.2 |}
  | None => Done t
  end.

Fixpoint threads_run (schedule : list nat) (t : Threads) : Outcome Threads :=
  match schedule with
  | [] => Done t
  | k :: schedule => do t <- thread_step k t; threads_run schedule t
  end.

End Worker.

(** ** An instance: IEEE doubles, a corridor, a table of action values

    The concrete collaborators the theorems are evaluated on: [double] is
    [PrimFloat]; the environment is a corridor walked one cell per step with
    reward 1, ending at a goal cell; the network is a table with one value per
    action, whose gradient is output minus target; the optimizer is plain
    gradient descent; the policy is greedy. *)

Module Corridor.

#[export] Instance float_Double : Double float := {
  d_zero := 0%float;
  d_add := PrimFloat.add;
  d_mul := PrimFloat.mul;
  d_opp := PrimFloat.opp;
  d_ltb := PrimFloat.ltb
}.

(** The state is the cell, the environment object is the goal cell. *)
#[export] Instance corridor : Environment float float float := {
  Action_size := 2%nat;
  Encode := fun cell => [cell];
  env_Sample := fun goal cell _ => (1%float, (cell + 1)%float, goal);
  IsTerminal := fun goal cell => negb (PrimFloat.ltb cell goal)
}.

(** The network is the value of action 0 and the value of action 1; its
    parameters are the 2 by 1 matrix of the two. *)
Definition Table : Type := float * float.

Definition values (net : Table) : list float := [net.1; net.2].

#[export] Instance table : Network float Table := {
  Predict := fun net _ => (values net, net);
  Forward := fun net _ => (values net, net);
  Backward := fun net _ target =>
    (Mat 2 1 (zip_with PrimFloat.sub (values net) target), net);
  Parameters := fun net => Mat 2 1 (values net);
  set_Parameters := fun net P =>
    match mem P with
    | [a; b] => (a, b)
    | _ => net
    end
}.

Definition greedy (actionValue : list float) : ActionType :=
  match actionValue with
  | [a; b] => if PrimFloat.ltb a b then 1%nat else 0%nat
  | _ => 0%nat
  end.

(** The policy object is its exploration rate; it draws nothing. *)
#[export] Instance greedy_policy : Policy float float unit := {
  pol_Sample := fun _ actionValue _ g => (greedy actionValue, g);
  Anneal := fun epsilon => (epsilon * 0.5)%float
}.

#[export] Instance descent : Updater float unit := {
  Update := fun u P stepSize G =>
    (Mat (n_rows P) (n_cols P)
       (zip_with (fun p g => (p - stepSize * g)%float) (mem P) (mem G)), u)
}.

Definition W : Type := @Worker float float float Table unit.
Definition S : Type := @Shared float Table float unit.

(** [TrainingConfig] with the given step limit and sync interval. *)
Definition cfg_with (stepLimit syncInterval : Z) : TrainingConfig float := {|
  StepLimit := stepLimit;
  UpdateInterval := 3;
  Discount := 0.9%float;
  GradientLimit := 100%float;
  StepSize := 0.5%float;
  TargetNetworkSyncInterval := syncInterval
|}.

Definition cfg : TrainingConfig float := cfg_with 10 100.

(** A value-initialised transition: what the buffer holds at construction. *)
Definition blank : Transition float float := {|
  tr_state := 0%float;
  tr_action := 0%nat;
  tr_reward := 0%float;
  tr_nextState := 0%float;
  tr_nextAction := 0%nat
|}.

(** A new worker: at the start of an episode in cell 0, with an empty buffer
    ([pendingIndex = 0]) of capacity [UpdateInterval = 3]. *)
Definition worker (c : TrainingConfig float) (det : bool) (goal : float) : W := {|
  state := 0%float;
  action := 2%nat;
  network := (0%float, 0%float);
  environment := goal;
  config := c;
  deterministic := det;
  updatePolicy := tt;
  episodeReturn := 0%float;
  steps := 0;
  pending := [blank; blank; blank];
  pendingIndex := 0
|}.

(** One cell before the goal: the first step of the episode is terminal. *)
Definition w0 : W := worker cfg false 1%float.

(** The same worker in deterministic mode. *)
Definition w_det : W := worker cfg true 1%float.

(** Far from the goal. *)
Definition w_far : W := worker cfg false 9%float.
Definition w_far_det : W := worker cfg true 9%float.

(** Far from the goal, with a step limit of 2. *)
Definition w_limit : W := worker (cfg_with 2 100) false 9%float.

(** One cell before the goal, syncing the target network at every step. *)
Definition w_sync : W := worker (cfg_with 10 1) false 1%float.

(** Workers syncing the target network every second step. *)
Definition w_two : W := worker (cfg_with 10 2) false 1%float.
Definition w_two_det : W := worker (cfg_with 10 2) true 1%float.

Definition s0 : S := {|
  learningNetwork := (0%float, 0%float);
  targetNetwork := (2%float, 2%float);
  totalSteps := 0;
  policy := 0.1%float;
  totalReward := 0%float;
  rng := tt
|}.

(** [w0] and [s0] at the point where the first call decides to flush: the
    transition of the call is in [pending[0]] and [pendingIndex] is 1. *)
Definition w1 : W :=
  Eval vm_compute in
    match before_flush w0 s0 with Done r => r.1.2 | Undefined _ => w0 end.

Definition s1 : S :=
  Eval vm_compute in
    match before_flush w0 s0 with Done r => r.2 | Undefined _ => s0 end.

(** Two workers sharing [s0], the second one evaluating. *)
Definition two_workers : @System float float float Table float unit unit :=
  {| workers := [w_two; w_two_det]; shared := s0 |}.

(** An episode of four steps: a new worker four cells before the goal. *)
Definition w_start : W := worker cfg false 4%float.

Definition start : @System float float float Table float unit unit :=
  {| workers := [w_start]; shared := s0 |}.

(** The worker and the shared objects after the first three calls: the buffer
    has been filled and flushed, [pendingIndex] is 0 again and [pending] still
    holds the three transitions. *)
Definition after_three : @System float float float Table float unit unit :=
  Eval vm_compute in
    match sys_run [0; 0; 0]%nat start with Done sys => sys | Undefined _ => start end.

Definition w3 : W :=
  Eval vm_compute in
    match workers after_three with w :: _ => w | [] => w_start end.

Definition s3 : S := Eval vm_compute in shared after_three.

(** The fourth call reaches the goal.  [w4] and [s4] are the worker and the
    shared objects at the point where it decides to flush. *)
Definition w4 : W :=
  Eval vm_compute in
    match before_flush w3 s3 with Done r => r.1.2 | Undefined _ => w3 end.

Definition s4 : S :=
  Eval vm_compute in
    match before_flush w3 s3 with Done r => r.2 | Undefined _ => s3 end.

Definition w_no_limit : W := worker (cfg_with 0 100) false 9%float.

Definition w_no_buffer : W := {|
  state := 0%float;
  action := 2%nat;
  network := (0%float, 0%float);
  environment := 9%float;
  config := cfg;
  deterministic := false;
  updatePolicy := tt;
  episodeReturn := 0%float;
  steps := 0;
  pending := [];
  pendingIndex := 0
|}.


(** [w_far] after one call and after two calls, with the shared objects. *)
Definition far_one : @System float float float Table float unit unit :=
  Eval vm_compute in
    match sys_run [0]%nat {| workers := [w_far]; shared := s0 |} with
    | Done sys => sys
    | Undefined _ => {| workers := [w_far]; shared := s0 |}
    end.

Definition far_two : @System float float float Table float unit unit :=
  Eval vm_compute in
    match sys_run [0]%nat far_one with
    | Done sys => sys
    | Undefined _ => far_one
    end.

Definition w_far1 : W :=
  Eval vm_compute in match workers far_one with w :: _ => w | [] => w_far end.
Definition s_far1 : S := Eval vm_compute in shared far_one.
Definition w_far2 : W :=
  Eval vm_compute in match workers far_two with w :: _ => w | [] => w_far end.
Definition s_far2 : S := Eval vm_compute in shared far_two.

(** Three workers in stochastic mode between two calls, far from the goal,
    syncing the target network every second step: their first calls neither
    end the episode nor flush. *)
Definition w_two_far : W := worker (cfg_with 10 2) false 9%float.

Definition three_workers : @Threads float float float Table float unit unit :=
  {| threads := [Idle w_two_far; Idle w_two_far; Idle w_two_far]; world := s0 |}.

(** A worker whose buffer is full at a terminal step: three steps of reward 1
    from cell 0 to the goal in cell 3, the local network valuing action 0 at
    2; the gradient limit is a parameter. *)
Definition cfg_limit (limit : float) : TrainingConfig float := {|
  StepLimit := 10;
  UpdateInterval := 3;
  Discount := 0.9%float;
  GradientLimit := limit;
  StepSize := 0.5%float;
  TargetNetworkSyncInterval := 100
|}.

Definition walked (cell : float) : Transition float float := {|
  tr_state := cell;
  tr_action := 0%nat;
  tr_reward := 1%float;
  tr_nextState := (cell + 1)%float;
  tr_nextAction := 0%nat
|}.

Definition w_full (limit : float) : W := {|
  state := 2%float;
  action := 0%nat;
  network := (2%float, 0%float);
  environment := 3%float;
  config := cfg_limit limit;
  deterministic := false;
  updatePolicy := tt;
  episodeReturn := 3%float;
  steps := 3;
  pending := [walked 0; walked 1; walked 2];
  pendingIndex := 3
|}.

Definition s_full : S := {|
  learningNetwork := (2%float, 0%float);
  targetNetwork := (2%float, 2%float);
  totalSteps := 3;
  policy := 0.1%float;
  totalReward := 0%float;
  rng := tt
|}.

End Corridor.

(** * Properties *)

(** ** Outcomes and [size_t] *)

Lemma bind_Done {A B} (c : Outcome A) (k : A -> Outcome B) (b : B) :
  bind c k = Done b -> exists a, c = Done a /\ k a = Done b.
Proof. destruct c as [a|f]; simpl; [eauto | discriminate]. Qed.

Lemma bind_Undefined {A B} (c : Outcome A) (k : A -> Outcome B) f :
  bind c k = Undefined f ->
  c = Undefined f \/ exists a, c = Done a /\ k a = Undefined f.
Proof. destruct c as [a|f']; simpl; [eauto | intros [= ->]; auto]. Qed.

Lemma wrap_small z : 0 <= z < size_t_modulus -> wrap z = z.
Proof. intros Hz. unfold wrap. now apply Z.mod_small. Qed.

Section Properties.

Context {D StateType EnvironmentType NetworkType PolicyType UpdaterType Rng : Type}.
Context `{!Double D}
        `{!Environment D StateType EnvironmentType}
        `{!Network D NetworkType}
        `{!Policy D PolicyType Rng}
        `{!Updater D UpdaterType}.

Abbreviation Worker := (@Worker D StateType EnvironmentType NetworkType UpdaterType).
Abbreviation Shared := (@Shared D NetworkType PolicyType Rng).
Abbreviation Interaction := (@Interaction D StateType).
Abbreviation Frame := (@Frame D StateType EnvironmentType NetworkType UpdaterType).
Abbreviation Threads :=
  (@Threads D StateType EnvironmentType NetworkType PolicyType UpdaterType Rng).

Implicit Types (w : Worker) (s : Shared) (i : Interaction).
Implicit Types (tr : Transition D StateType) (cfg : TrainingConfig D).
Implicit Types (net tnet : NetworkType) (rest : list (Transition D StateType)).

(** Reduction of the projections of the records on their assignments, leaving
    the collaborators' calls folded. *)
Tactic Notation "fields" :=
  cbn [state action network environment config deterministic updatePolicy
       episodeReturn steps pending pendingIndex
       learningNetwork targetNetwork totalSteps policy totalReward rng
       set_state set_action set_network set_environment set_updatePolicy
       set_episodeReturn set_steps set_pending set_pendingIndex
       set_learningNetwork set_targetNetwork set_totalSteps set_policy
       set_totalReward set_rng count_step anneal base_Reset Reset
       reward nextState nextAction terminal bind fst snd].

Tactic Notation "fields" "in" hyp(H) :=
  cbn [state action network environment config deterministic updatePolicy
       episodeReturn steps pending pendingIndex
       learningNetwork targetNetwork totalSteps policy totalReward rng
       set_state set_action set_network set_environment set_updatePolicy
       set_episodeReturn set_steps set_pending set_pendingIndex
       set_learningNetwork set_targetNetwork set_totalSteps set_policy
       set_totalReward set_rng count_step anneal base_Reset Reset
       reward nextState nextAction terminal bind fst snd] in H.

(** The same for the frames of the statement machine. *)
Tactic Notation "frames" :=
  cbn [pc locals totalGradients self at_point with_self enter fst snd bind].

(** ** What the interaction touches *)

Lemma begin_episode_worker_frame w s :
  let w1 := (begin_episode w s).1 in
  config w1 = config w /\ deterministic w1 = deterministic w /\
  updatePolicy w1 = updatePolicy w /\ episodeReturn w1 = episodeReturn w /\
  steps w1 = steps w /\ pending w1 = pending w /\
  pendingIndex w1 = pendingIndex w /\ state w1 = state w /\
  environment w1 = environment w.
Proof.
  unfold begin_episode; destruct (action w =? Action_size)%nat; simpl; auto 10.
Qed.

Lemma begin_episode_shared_frame w s :
  let s1 := (begin_episode w s).2 in
  learningNetwork s1 = learningNetwork s /\ targetNetwork s1 = targetNetwork s /\
  totalSteps s1 = totalSteps s /\ policy s1 = policy s /\
  totalReward s1 = totalReward s.
Proof.
  unfold begin_episode; destruct (action w =? Action_size)%nat; simpl; auto.
Qed.

Lemma interact_worker_frame w s :
  let w1 := (interact w s).1.2 in
  config w1 = config w /\ deterministic w1 = deterministic w /\
  updatePolicy w1 = updatePolicy w /\ pending w1 = pending w /\
  pendingIndex w1 = pendingIndex w.
Proof.
  destruct (begin_episode_worker_frame w s) as (?&?&?&?&?&?&?&?&?).
  unfold interact; simpl; auto.
Qed.

Lemma interact_shared_frame w s :
  let s1 := (interact w s).2 in
  learningNetwork s1 = learningNetwork s /\ targetNetwork s1 = targetNetwork s /\
  totalSteps s1 = totalSteps s /\ policy s1 = policy s /\
  totalReward s1 = totalReward s.
Proof.
  destruct (begin_episode_shared_frame w s) as (?&?&?&?&?).
  unfold interact; simpl; auto.
Qed.

Lemma interact_steps w s :
  steps (interact w s).1.2 = wrap (steps w + 1).
Proof.
  destruct (begin_episode_worker_frame w s) as (?&?&?&?&Hs&?).
  unfold interact; simpl. now rewrite Hs.
Qed.

Lemma interact_episodeReturn w s :
  episodeReturn (interact w s).1.2
  = d_add (episodeReturn w) (reward (interact w s).1.1).
Proof.
  destruct (begin_episode_worker_frame w s) as (?&?&?&Hr&?).
  unfold interact; simpl. now rewrite Hr.
Qed.

Lemma interact_terminal w s :
  terminal (interact w s).1.1
  = IsTerminal (env_answer w s).2 (env_answer w s).1.2
    || (StepLimit (config w) <=? wrap (steps w + 1)).
Proof.
  destruct (begin_episode_worker_frame w s) as (Hc&?&?&?&Hs&?).
  unfold interact, env_answer; simpl. now rewrite Hc, Hs.
Qed.

Lemma interact_reward w s :
  reward (interact w s).1.1 = (env_answer w s).1.1.
Proof. reflexivity. Qed.

Lemma interact_nextState w s :
  nextState (interact w s).1.1 = (env_answer w s).1.2.
Proof. reflexivity. Qed.

(** ** The phases of a call in stochastic mode *)

Lemma append_pending_Done i w w1 :
  append_pending i w = Done w1 ->
  0 <= pendingIndex w < Z.of_nat (length (pending w)) /\
  w1 = set_pendingIndex (wrap (pendingIndex w + 1))
         (set_pending
            (<[Z.to_nat (pendingIndex w) :=
                 {| tr_state := state w; tr_action := action w;
                    tr_reward := reward i; tr_nextState := nextState i;
                    tr_nextAction := nextAction i |}]> (pending w)) w).
Proof.
  unfold append_pending.
  destruct (0 <=? pendingIndex w) eqn:H0; simpl; [|discriminate].
  destruct (pendingIndex w <? Z.of_nat (length (pending w))) eqn:H1; [|discriminate].
  intros [= <-]. split; [lia | reflexivity].
Qed.

Lemma append_pending_in_range i w :
  0 <= pendingIndex w < Z.of_nat (length (pending w)) ->
  exists w1, append_pending i w = Done w1.
Proof.
  intros Hr. unfold append_pending.
  replace (0 <=? pendingIndex w) with true by (symmetry; apply Z.leb_le; lia).
  replace (pendingIndex w <? Z.of_nat (length (pending w))) with true
    by (symmetry; apply Z.ltb_lt; lia).
  simpl; eauto.
Qed.

Lemma append_pending_fault i w f :
  append_pending i w = Undefined f -> f = PendingOutOfRange.
Proof.
  unfold append_pending.
  destruct (_ && _); [discriminate | now intros [= <-]].
Qed.

Lemma flush_Done term w s w' s' :
  flush term w s = Done (w', s') ->
  exists T net tnet,
    flush_loop (config w) term (Z.of_nat (length (pending w))) 0 (pending w)
      (network w) (targetNetwork s)
      (mat_zeros (n_rows (Parameters (learningNetwork s)))
                 (n_cols (Parameters (learningNetwork s))))
    = Done (T, net, tnet) /\
    let G := mat_transform (clamp (GradientLimit (config w))) T in
    let u := Update (updatePolicy w) (Parameters (learningNetwork s))
               (StepSize (config w)) G in
    s' = set_learningNetwork (set_Parameters (learningNetwork s) u.1)
           (set_targetNetwork tnet s) /\
    w' = set_pendingIndex 0
           (set_network (set_Parameters (learningNetwork s) u.1)
              (set_updatePolicy u.2 (set_network net w))).
Proof.
  unfold flush. intros Hf.
  apply bind_Done in Hf as ([[T net] tnet] & Hloop & Hrest).
  exists T, net, tnet. split; [exact Hloop|].
  simpl in Hrest. injection Hrest as <- <-. split; reflexivity.
Qed.

Lemma flush_worker_frame term w s w' s' :
  flush term w s = Done (w', s') ->
  config w' = config w /\ deterministic w' = deterministic w /\
  pending w' = pending w /\ steps w' = steps w /\
  episodeReturn w' = episodeReturn w /\ pendingIndex w' = 0 /\
  network w' = learningNetwork s'.
Proof.
  intros Hf. apply flush_Done in Hf as (T & net & tnet & _ & -> & ->).
  simpl. auto 10.
Qed.

Lemma flush_shared_frame term w s w' s' :
  flush term w s = Done (w', s') ->
  totalSteps s' = totalSteps s /\ policy s' = policy s /\
  totalReward s' = totalReward s /\ rng s' = rng s.
Proof.
  intros Hf. apply flush_Done in Hf as (T & net & tnet & _ & -> & ->).
  simpl. auto.
Qed.

Lemma sync_target_Done w s s' :
  sync_target w s = Done s' ->
  TargetNetworkSyncInterval (config w) <> 0 /\
  s' = (if sync_due w s then set_targetNetwork (learningNetwork s) s else s).
Proof.
  unfold sync_target.
  destruct (TargetNetworkSyncInterval (config w) =? 0) eqn:Hz; [discriminate|].
  apply Z.eqb_neq in Hz.
  destruct (sync_due w s); intros [= <-]; auto.
Qed.

Lemma sync_target_frame w s s' :
  sync_target w s = Done s' ->
  learningNetwork s' = learningNetwork s /\ totalSteps s' = totalSteps s /\
  policy s' = policy s /\ totalReward s' = totalReward s /\ rng s' = rng s.
Proof.
  intros Hs. apply sync_target_Done in Hs as [_ ->].
  destruct (sync_due w s); simpl; auto.
Qed.

(** A successful call in stochastic mode went through every phase, in the
    order of the source. *)
Lemma Step_stochastic_Done i w s b w' s' :
  Step_stochastic i w s = Done (b, w', s') ->
  exists w1 w2 s2 s3,
    append_pending i w = Done w1 /\
    (if flush_due (terminal i) w1 then flush (terminal i) w1 (count_step s)
     else Done (w1, count_step s)) = Done (w2, s2) /\
    sync_target w2 s2 = Done s3 /\
    finish i w2 (anneal s3) = (b, w', s').
Proof.
  unfold Step_stochastic. intros Hs.
  apply bind_Done in Hs as (w1 & Ha & Hs).
  apply bind_Done in Hs as ([w2 s2] & Hf & Hs).
  apply bind_Done in Hs as (s3 & Hy & Hs).
  injection Hs as Hs. exists w1, w2, s2, s3. auto.
Qed.

Lemma Step_Done w s b w' s' :
  Step w s = Done (b, w', s') ->
  (deterministic w = true /\
   Step_deterministic (interact w s).1.1 (interact w s).1.2 (interact w s).2
   = (b, w', s')) \/
  (deterministic w = false /\
   Step_stochastic (interact w s).1.1 (interact w s).1.2 (interact w s).2
   = Done (b, w', s')).
Proof.
  unfold Step. cbv zeta. intros Hs.
  destruct (interact_worker_frame w s) as (_ & Hd & _).
  rewrite Hd in Hs.
  destruct (deterministic w); [left | right]; split; auto. now injection Hs.
Qed.

Lemma buffer_phase i w s w1 w2 s2 :
  append_pending i w = Done w1 ->
  (if flush_due (terminal i) w1 then flush (terminal i) w1 (count_step s)
   else Done (w1, count_step s)) = Done (w2, s2) ->
  config w2 = config w /\ deterministic w2 = deterministic w /\
  steps w2 = steps w /\ episodeReturn w2 = episodeReturn w /\
  length (pending w2) = length (pending w) /\
  pendingIndex w2
  = (if flush_due (terminal i) w1 then 0 else wrap (pendingIndex w + 1)) /\
  totalSteps s2 = wrap (totalSteps s + 1) /\ policy s2 = policy s /\
  totalReward s2 = totalReward s.
Proof.
  intros Ha Hf. apply append_pending_Done in Ha as [_ ->].
  destruct (flush_due _ _).
  - destruct (flush_worker_frame _ _ _ _ _ Hf) as (-> & -> & -> & -> & -> & -> & _).
    destruct (flush_shared_frame _ _ _ _ _ Hf) as (-> & -> & -> & _).
    simpl. rewrite length_insert. auto 10.
  - injection Hf as <- <-. simpl. rewrite length_insert. auto 10.
Qed.

Lemma finish_result i w s b w' s' :
  finish i w s = (b, w', s') ->
  b = terminal i /\
  config w' = config w /\ deterministic w' = deterministic w /\
  pending w' = pending w /\ network w' = network w /\
  updatePolicy w' = updatePolicy w /\
  steps w' = (if b then 0 else steps w) /\
  pendingIndex w' = (if b then 0 else pendingIndex w) /\
  learningNetwork s' = learningNetwork s /\ targetNetwork s' = targetNetwork s /\
  totalSteps s' = totalSteps s /\ policy s' = policy s /\
  totalReward s' = (if b then episodeReturn w else totalReward s).
Proof.
  unfold finish. destruct (terminal i); intros [= <- <- <-]; simpl; auto 15.
Qed.

Lemma Step_deterministic_result i w s b w' s' :
  Step_deterministic i w s = (b, w', s') ->
  b = terminal i /\
  config w' = config w /\ deterministic w' = deterministic w /\
  pending w' = pending w /\ updatePolicy w' = updatePolicy w /\
  steps w' = (if b then 0 else steps w) /\
  pendingIndex w' = (if b then 0 else pendingIndex w) /\
  learningNetwork s' = learningNetwork s /\ targetNetwork s' = targetNetwork s /\
  totalSteps s' = totalSteps s /\ policy s' = policy s /\
  totalReward s' = (if b then episodeReturn w else totalReward s).
Proof.
  unfold Step_deterministic. destruct (terminal i); intros [= <- <- <-]; simpl; auto 15.
Qed.

Lemma finish_action i w s b w' s' :
  finish i w s = (b, w', s') ->
  action w' = if b then Action_size else nextAction i.
Proof.
  unfold finish. destruct (terminal i); intros [= <- <- <-]; reflexivity.
Qed.

Lemma Step_deterministic_action i w s b w' s' :
  Step_deterministic i w s = (b, w', s') ->
  action w' = if b then Action_size else nextAction i.
Proof.
  unfold Step_deterministic. destruct (terminal i); intros [= <- <- <-]; reflexivity.
Qed.

(** What every successful call does to the worker's bookkeeping. *)
Lemma Step_bookkeeping w s b w' s' :
  Step w s = Done (b, w', s') ->
  b = terminal (interact w s).1.1 /\
  config w' = config w /\ deterministic w' = deterministic w /\
  length (pending w') = length (pending w) /\
  steps w' = (if b then 0 else wrap (steps w + 1)).
Proof.
  intros HS.
  destruct (interact_worker_frame w s) as (Hc & Hd & _ & Hp & _).
  pose proof (interact_steps w s) as Hst.
  apply Step_Done in HS as [[_ HS] | [_ HS]].
  - apply Step_deterministic_result in HS
      as (-> & -> & -> & -> & _ & -> & _).
    rewrite Hc, Hd, Hp, Hst. auto.
  - apply Step_stochastic_Done in HS as (w1 & w2 & s2 & s3 & Ha & Hf & _ & Hfin).
    destruct (buffer_phase _ _ _ _ _ _ Ha Hf) as (Hc2 & Hd2 & Hs2 & _ & Hl2 & _).
    apply finish_result in Hfin as (-> & -> & -> & -> & _ & _ & -> & _).
    rewrite Hc2, Hd2, Hl2, Hs2, Hc, Hd, Hp, Hst. auto.
Qed.

(** ** Termination of episodes *)

Lemma episode_steps_counted w0 k w :
  steps w0 = 0 -> 0 < StepLimit (config w0) < size_t_modulus ->
  episode_steps w0 k w ->
  config w = config w0 /\ steps w = Z.of_nat k /\ Z.of_nat k < StepLimit (config w0).
Proof.
  intros H0 Hlim Hrun. induction Hrun as [|k w s w' s' _ IH HS].
  - split; [reflexivity|]. split; [exact H0 | lia].
  - destruct IH as (Hc & Hk & Hlt).
    pose proof (interact_terminal w s) as Ht.
    apply Step_bookkeeping in HS as (Hb & Hc' & _ & _ & Hst).
    rewrite <- Hb in Ht. symmetry in Ht.
    apply orb_false_elim in Ht as [_ Ht]. apply Z.leb_gt in Ht.
    rewrite Hc, Hk in Ht. rewrite Hk in Hst.
    rewrite wrap_small in Ht, Hst by lia.
    split; [congruence|]. split; lia.
Qed.

(** C4. The flag a call returns is true exactly when the environment says the
    next state is terminal or the step counter of the episode, incremented for
    this call, has reached [StepLimit]; hence in an episode begun with the
    counter at 0 the calls that do not end it number fewer than [StepLimit],
    and the call numbered [StepLimit] ends it whatever the environment says. *)
Theorem Step_terminal_iff_env_or_StepLimit :
  (forall w s b w' s',
      Step w s = Done (b, w', s') ->
      (b = true <->
       IsTerminal (env_answer w s).2 (env_answer w s).1.2 = true \/
       StepLimit (config w) <= wrap (steps w + 1))) /\
  (forall w0 k w,
      steps w0 = 0 -> 0 < StepLimit (config w0) < size_t_modulus ->
      episode_steps w0 k w ->
      Z.of_nat k < StepLimit (config w0) /\
      steps w = Z.of_nat k /\
      (forall s b w' s',
          Step w s = Done (b, w', s') ->
          Z.of_nat (S k) = StepLimit (config w0) -> b = true)).
Proof.
  split.
  - intros w s b w' s' HS.
    apply Step_bookkeeping in HS as (-> & _).
    rewrite interact_terminal, orb_true_iff, Z.leb_le. reflexivity.
  - intros w0 k w H0 Hlim Hrun.
    destruct (episode_steps_counted _ _ _ H0 Hlim Hrun) as (Hc & Hk & Hlt).
    split; [exact Hlt|]. split; [exact Hk|].
    intros s b w' s' HS Hlast.
    apply Step_bookkeeping in HS as (-> & _).
    rewrite interact_terminal, orb_true_iff, Z.leb_le. right.
    rewrite Hc, Hk, wrap_small by lia. lia.
Qed.

(** ** The faults of each phase *)

Lemma vec_get_defined (v : list D) (n : nat) :
  (n < length v)%nat -> exists x, vec_get v n = Done x.
Proof.
  intros Hn. unfold vec_get. destruct (v !! n) as [x|] eqn:Hx; [eauto|].
  apply lookup_ge_None in Hx. lia.
Qed.

Lemma vec_get_fault (v : list D) n f :
  vec_get v n = Undefined f -> f = VecIndexOutOfRange.
Proof. unfold vec_get. destruct (v !! n); [discriminate | now intros [= <-]]. Qed.

Lemma vec_set_fault (v : list D) n x f :
  vec_set v n x = Undefined f -> f = VecIndexOutOfRange.
Proof. unfold vec_set. destruct (n <? length v)%nat; [discriminate | now intros [= <-]]. Qed.

Lemma mat_add_fault (A B : mat D) f :
  mat_add A B = Undefined f -> f = ShapeMismatch.
Proof. unfold mat_add. destruct (_ && _); [discriminate | now intros [= <-]]. Qed.

Lemma target_value_fault cfg term size k tr av f :
  target_value cfg term size k tr av = Undefined f -> f = VecIndexOutOfRange.
Proof.
  unfold target_value, bootstrap_value. intros Ht.
  apply bind_Undefined in Ht as [Ht | (a & _ & Ht)]; [|discriminate].
  destruct (negb _); [now apply vec_get_fault in Ht | discriminate].
Qed.

Lemma transition_gradient_fault cfg term size k tr net tnet f :
  transition_gradient cfg term size k tr net tnet = Undefined f ->
  f = VecIndexOutOfRange.
Proof.
  unfold transition_gradient. intros Ht.
  apply bind_Undefined in Ht as [Ht | (t & _ & Ht)].
  - now apply target_value_fault in Ht.
  - apply bind_Undefined in Ht as [Ht | (a & _ & Ht)]; [|discriminate].
    now apply vec_set_fault in Ht.
Qed.

Lemma flush_loop_fault cfg term size k rest net tnet acc f :
  flush_loop cfg term size k rest net tnet acc = Undefined f ->
  f = VecIndexOutOfRange \/ f = ShapeMismatch.
Proof.
  revert k net tnet acc.
  induction rest as [|tr rest IH]; intros k net tnet acc; simpl; [discriminate|].
  intros Hl.
  apply bind_Undefined in Hl as [Hl | (g & _ & Hl)].
  - left. now apply transition_gradient_fault in Hl.
  - apply bind_Undefined in Hl as [Hl | (T & _ & Hl)].
    + right. now apply mat_add_fault in Hl.
    + now apply IH in Hl.
Qed.

Lemma flush_fault term w s f :
  flush term w s = Undefined f -> f = VecIndexOutOfRange \/ f = ShapeMismatch.
Proof.
  unfold flush. intros Hf.
  apply bind_Undefined in Hf as [Hf | (r & _ & Hf)]; [|discriminate].
  now apply flush_loop_fault in Hf.
Qed.

Lemma sync_target_fault w s f :
  sync_target w s = Undefined f -> f = ModuloByZero.
Proof.
  unfold sync_target.
  destruct (_ =? 0); [now intros [= <-]|]. destruct (sync_due w s); discriminate.
Qed.

(** The only way to [PendingOutOfRange] is the write into [pending]. *)
Lemma Step_PendingOutOfRange w s :
  Step w s = Undefined PendingOutOfRange ->
  deterministic w = false /\
  ~ 0 <= pendingIndex w < Z.of_nat (length (pending w)).
Proof.
  unfold Step. cbv zeta.
  destruct (interact_worker_frame w s) as (_ & Hd & _ & Hp & Hi).
  rewrite Hd. destruct (deterministic w); [discriminate|].
  intros HS. split; [reflexivity|]. intros Hr.
  unfold Step_stochastic in HS.
  apply bind_Undefined in HS as [HS | (w1 & Ha & HS)].
  - destruct (append_pending_in_range (interact w s).1.1 (interact w s).1.2)
      as [w1 Hw1]; [rewrite Hp, Hi; exact Hr | congruence].
  - apply bind_Undefined in HS as [HS | (ws & _ & HS)].
    + destruct (flush_due _ _); [|discriminate].
      apply flush_fault in HS as [HS | HS]; discriminate.
    + apply bind_Undefined in HS as [HS | (s3 & _ & HS)]; [|discriminate].
      apply sync_target_fault in HS. discriminate.
Qed.

(** ** The fill index of the buffer *)

Lemma interact_state_action w s :
  state (interact w s).1.2 = state (begin_episode w s).1 /\
  action (interact w s).1.2 = action (begin_episode w s).1.
Proof. unfold interact; simpl; auto. Qed.

Lemma before_flush_Done w s :
  buffer_ok w ->
  exists w1,
    before_flush w s = Done ((interact w s).1.1, w1, count_step (interact w s).2) /\
    append_pending (interact w s).1.1 (interact w s).1.2 = Done w1 /\
    config w1 = config w /\
    pendingIndex w1 = pendingIndex w + 1 /\
    length (pending w1) = length (pending w) /\
    pending w1 !! Z.to_nat (pendingIndex w)
    = Some {| tr_state := state (begin_episode w s).1;
              tr_action := action (begin_episode w s).1;
              tr_reward := reward (interact w s).1.1;
              tr_nextState := nextState (interact w s).1.1;
              tr_nextAction := nextAction (interact w s).1.1 |}.
Proof.
  intros (Hpi & Hlen & Hmax).
  destruct (interact_worker_frame w s) as (Hc & _ & _ & Hp & Hi).
  destruct (interact_state_action w s) as (Hst & Hac).
  destruct (append_pending_in_range (interact w s).1.1 (interact w s).1.2) as [w1 Ha].
  { rewrite Hp, Hi. lia. }
  exists w1. unfold before_flush. cbv zeta. rewrite Ha.
  split; [reflexivity|]. split; [reflexivity|].
  apply append_pending_Done in Ha as [_ ->]. fields.
  rewrite Hc, Hi, Hp, Hst, Hac, length_insert, wrap_small by lia.
  repeat split.
  apply list_lookup_insert_eq. lia.
Qed.

Lemma Step_keeps_buffer_ok w s b w' s' :
  buffer_ok w -> Step w s = Done (b, w', s') -> buffer_ok w'.
Proof.
  intros Hok HS. pose proof Hok as (Hpi & Hlen & Hmax).
  destruct (interact_worker_frame w s) as (Hc & _ & _ & Hp & Hi).
  destruct (Step_bookkeeping _ _ _ _ _ HS) as (_ & Hc' & _ & Hl' & _).
  unfold buffer_ok. rewrite Hc', Hl'. split; [|auto].
  apply Step_Done in HS as [[_ HS] | [_ HS]].
  - apply Step_deterministic_result in HS as (_ & _ & _ & _ & _ & _ & -> & _).
    rewrite Hi. destruct b; lia.
  - apply Step_stochastic_Done in HS as (w1 & w2 & s2 & s3 & Ha & Hf & _ & Hfin).
    destruct (buffer_phase _ _ _ _ _ _ Ha Hf) as (_ & _ & _ & _ & _ & Hpi2 & _).
    apply finish_result in Hfin as (_ & _ & _ & _ & _ & _ & _ & -> & _).
    destruct b; [lia|]. rewrite Hpi2.
    destruct (flush_due _ w1) eqn:Hdue; [lia|].
    apply append_pending_Done in Ha as [_ ->].
    unfold flush_due in Hdue. fields in Hdue.
    apply orb_false_elim in Hdue as [_ Hdue]. apply Z.leb_gt in Hdue.
    rewrite Hc, Hi in Hdue. rewrite Hi.
    rewrite wrap_small in Hdue by lia. rewrite wrap_small by lia. lia.
Qed.

Lemma reachable_buffer_ok w0 w :
  buffer_ok w0 -> reachable w0 w -> buffer_ok w.
Proof.
  intros Hok Hr. induction Hr as [|w s b w' s' _ IH HS]; [exact Hok|].
  eapply Step_keeps_buffer_ok; eauto.
Qed.

(** C5. From a worker whose fill index is a valid index of the buffer (as it
    is at construction, 0), after any number of calls with any answers of the
    environment and any shared objects: [pendingIndex] is in
    [[0, UpdateInterval)] between calls; the next call never writes past the
    buffer; in stochastic mode it stores the transition at [pendingIndex] and
    increments the index, to at most [UpdateInterval]; and when the step is
    terminal or the index has reached [UpdateInterval] the flush runs and the
    call leaves the index at 0, else it leaves it incremented. *)
Theorem pendingIndex_within_UpdateInterval w0 w s :
  buffer_ok w0 -> reachable w0 w ->
  0 <= pendingIndex w < UpdateInterval (config w) /\
  Step w s <> Undefined PendingOutOfRange /\
  (deterministic w = false ->
   exists i w1 s1,
     before_flush w s = Done (i, w1, s1) /\
     pending w1 !! Z.to_nat (pendingIndex w)
     = Some {| tr_state := state (begin_episode w s).1;
               tr_action := action (begin_episode w s).1;
               tr_reward := reward i;
               tr_nextState := nextState i;
               tr_nextAction := nextAction i |} /\
     pendingIndex w1 = pendingIndex w + 1 /\
     pendingIndex w1 <= UpdateInterval (config w) /\
     flush_due (terminal i) w1
     = terminal i || (UpdateInterval (config w) <=? pendingIndex w1) /\
     forall b w' s',
       Step w s = Done (b, w', s') ->
       if flush_due (terminal i) w1
       then (exists w2 s2, flush (terminal i) w1 s1 = Done (w2, s2) /\
                           pendingIndex w2 = 0) /\
            pendingIndex w' = 0
       else pendingIndex w' = pendingIndex w + 1 /\
            pendingIndex w' < UpdateInterval (config w)).
Proof.
  intros Hok0 Hr. pose proof (reachable_buffer_ok _ _ Hok0 Hr) as Hok.
  pose proof Hok as (Hpi & Hlen & Hmax).
  split; [exact Hpi|]. split.
  { intros HS. apply Step_PendingOutOfRange in HS as [_ HS]. apply HS. lia. }
  intros Hdet.
  destruct (before_flush_Done w s Hok) as (w1 & Hbf & Ha & Hc1 & Hpi1 & Hl1 & Hlk).
  exists (interact w s).1.1, w1, (count_step (interact w s).2).
  split; [exact Hbf|]. split; [exact Hlk|]. split; [exact Hpi1|]. split; [lia|].
  split; [unfold flush_due; now rewrite Hc1|].
  intros b w' s' HS.
  pose proof (Step_keeps_buffer_ok _ _ _ _ _ Hok HS) as (Hpi' & _).
  destruct (Step_bookkeeping _ _ _ _ _ HS) as (_ & Hc' & _).
  apply Step_Done in HS as [[Hd _] | [_ HS]]; [congruence|].
  apply Step_stochastic_Done in HS as (w1' & w2 & s2 & s3 & Ha' & Hf & _ & Hfin).
  assert (w1' = w1) as -> by congruence.
  destruct (buffer_phase _ _ _ _ _ _ Ha Hf) as (_ & _ & _ & _ & _ & Hpi2 & _).
  apply finish_result in Hfin as (Hb & _ & _ & _ & _ & _ & _ & Hfin & _).
  destruct (interact_worker_frame w s) as (_ & _ & _ & _ & Hi).
  destruct (flush_due _ w1) eqn:Hdue.
  - split; [exists w2, s2; split; [exact Hf | exact Hpi2]|]. destruct b; lia.
  - rewrite Hi, wrap_small in Hpi2 by lia.
    unfold flush_due in Hdue. apply orb_false_elim in Hdue as [Ht Hdue].
    apply Z.leb_gt in Hdue. rewrite Hc1 in Hdue.
    assert (b = false) as -> by congruence.
    lia.
Qed.

(** ** Deterministic mode *)

(** C6. In deterministic mode a call always succeeds; it leaves the buffer,
    the fill index (short of the reset), the optimizer and every shared object
    but [totalReward] as they were.  On a terminal step it stores the episode
    return in [totalReward], resets the episode, copies the shared learning
    network into the local network and returns true; on any other step it
    leaves [totalReward] alone, moves to the next state and the next action
    and returns false. *)
Theorem Step_deterministic_mode w s :
  deterministic w = true ->
  exists b w' s',
    Step w s = Done (b, w', s') /\
    b = terminal (interact w s).1.1 /\
    pending w' = pending w /\ updatePolicy w' = updatePolicy w /\
    learningNetwork s' = learningNetwork s /\
    targetNetwork s' = targetNetwork s /\
    totalSteps s' = totalSteps s /\ policy s' = policy s /\
    if b then
      totalReward s' = d_add (episodeReturn w) (env_answer w s).1.1 /\
      w' = set_network (learningNetwork s) (Reset (interact w s).1.2) /\
      action w' = Action_size /\ episodeReturn w' = d_zero /\ steps w' = 0 /\
      pendingIndex w' = 0 /\ network w' = learningNetwork s
    else
      totalReward s' = totalReward s /\
      pendingIndex w' = pendingIndex w /\
      state w' = (env_answer w s).1.2 /\
      action w' = nextAction (interact w s).1.1 /\
      w' = set_action (nextAction (interact w s).1.1)
             (set_state (nextState (interact w s).1.1) (interact w s).1.2).
Proof.
  intros Hdet.
  destruct (interact_worker_frame w s) as (Hc & Hd & Hu & Hp & Hi).
  destruct (interact_shared_frame w s) as (Hl & Ht & Hn & Hpo & Hr).
  pose proof (interact_episodeReturn w s) as Her.
  unfold Step. cbv zeta. rewrite Hd, Hdet. unfold Step_deterministic.
  destruct (terminal (interact w s).1.1) eqn:Hterm.
  - eexists _, _, _. split; [reflexivity|]. fields.
    rewrite Hp, Hu, Hl, Ht, Hn, Hpo, Her, interact_reward. auto 15.
  - eexists _, _, _. split; [reflexivity|]. fields.
    rewrite Hp, Hu, Hl, Ht, Hn, Hpo, Hr, Hi, interact_nextState. auto 15.
Qed.

(** ** The shared step counter *)

Lemma Step_totalSteps w s b w' s' :
  Step w s = Done (b, w', s') ->
  totalSteps s' = if deterministic w then totalSteps s else wrap (totalSteps s + 1).
Proof.
  intros HS. destruct (interact_shared_frame w s) as (_ & _ & Hn & _).
  apply Step_Done in HS as [[-> HS] | [-> HS]].
  - apply Step_deterministic_result in HS. destruct HS as (_&_&_&_&_&_&_&_&_&->&_).
    exact Hn.
  - apply Step_stochastic_Done in HS as (w1 & w2 & s2 & s3 & Ha & Hf & Hy & Hfin).
    destruct (buffer_phase _ _ _ _ _ _ Ha Hf) as (_&_&_&_&_&_& Hn2 &_).
    apply sync_target_frame in Hy as (_ & Hn3 & _).
    apply finish_result in Hfin. destruct Hfin as (_&_&_&_&_&_&_&_&_&_&->&_).
    fields. now rewrite Hn3, Hn2, Hn.
Qed.

Lemma sys_Step_Done k sys sys' :
  sys_Step k sys = Done sys' ->
  (workers sys !! k = None /\ sys' = sys) \/
  exists w b w' s',
    workers sys !! k = Some w /\ Step w (shared sys) = Done (b, w', s') /\
    sys' = {| workers := <[k := w']> (workers sys); shared := s' |}.
Proof.
  unfold sys_Step. destruct (workers sys !! k) as [w|]; [|intros [= <-]; auto].
  intros HS. apply bind_Done in HS as ([[b w'] s'] & HS & [= <-]).
  right. exists w, b, w', s'. auto.
Qed.

Lemma stochastic_insert (ws : list Worker) k w w' j :
  ws !! k = Some w -> deterministic w' = deterministic w ->
  stochastic (<[k := w']> ws) j = stochastic ws j.
Proof.
  intros Hk Hd. unfold stochastic.
  destruct (decide (k = j)) as [->|Hne].
  - rewrite list_lookup_insert_eq by (eapply lookup_lt_Some; eauto).
    now rewrite Hk, Hd.
  - now rewrite list_lookup_insert_ne.
Qed.

Lemma sys_Step_stochastic k sys sys' j :
  sys_Step k sys = Done sys' ->
  stochastic (workers sys') j = stochastic (workers sys) j.
Proof.
  intros HS.
  apply sys_Step_Done in HS as [[_ ->] | (w & b & w' & s' & Hk & HS & ->)];
    [reflexivity|].
  apply Step_bookkeeping in HS as (_ & _ & Hd & _).
  cbn [workers]. eapply stochastic_insert; eauto.
Qed.

Lemma stochastic_calls_ext (ws ws' : list Worker) schedule :
  (forall j, stochastic ws' j = stochastic ws j) ->
  stochastic_calls ws' schedule = stochastic_calls ws schedule.
Proof.
  intros Hext. induction schedule as [|k schedule IH]; simpl; [reflexivity|].
  now rewrite Hext, IH.
Qed.

Lemma sys_Step_totalSteps k sys sys' :
  sys_Step k sys = Done sys' ->
  totalSteps (shared sys')
  = if stochastic (workers sys) k then wrap (totalSteps (shared sys) + 1)
    else totalSteps (shared sys).
Proof.
  intros HS. unfold stochastic.
  apply sys_Step_Done in HS as [[-> ->] | (w & b & w' & s' & -> & HS & ->)];
    [reflexivity|].
  apply Step_totalSteps in HS. cbn [shared]. rewrite HS.
  now destruct (deterministic w).
Qed.

Lemma sys_run_totalSteps schedule sys sys' :
  is_size_t (totalSteps (shared sys)) ->
  sys_run schedule sys = Done sys' ->
  totalSteps (shared sys')
  = wrap (totalSteps (shared sys)
          + Z.of_nat (stochastic_calls (workers sys) schedule)).
Proof.
  revert sys. induction schedule as [|k schedule IH]; intros sys Hc HR.
  - injection HR as <-. simpl. rewrite Z.add_0_r. symmetry. now apply wrap_small.
  - simpl in HR. apply bind_Done in HR as (sys1 & H1 & HR).
    pose proof (sys_Step_totalSteps _ _ _ H1) as Hn.
    assert (is_size_t (totalSteps (shared sys1))) as Hc1.
    { rewrite Hn. destruct (stochastic _ k); [|exact Hc].
      apply Z.mod_pos_bound. reflexivity. }
    rewrite (IH _ Hc1 HR), Hn.
    rewrite (stochastic_calls_ext _ _ schedule
               (fun j => sys_Step_stochastic _ _ _ j H1)).
    cbn [stochastic_calls]. destruct (stochastic (workers sys) k).
    + rewrite Nat2Z.inj_add. change (Z.of_nat 1) with 1.
      unfold wrap. rewrite Zplus_mod_idemp_l. f_equal. lia.
    + f_equal.
Qed.

(** C7. A call in stochastic mode leaves the shared step counter one higher
    (in [size_t] arithmetic), a call in deterministic mode leaves it as it
    was; so over any schedule of calls by any workers the counter has advanced
    by the number of calls made in stochastic mode. *)
Theorem totalSteps_counts_stochastic_calls :
  (forall w s b w' s',
      Step w s = Done (b, w', s') ->
      totalSteps s'
      = if deterministic w then totalSteps s else wrap (totalSteps s + 1)) /\
  (forall schedule sys sys',
      is_size_t (totalSteps (shared sys)) ->
      sys_run schedule sys = Done sys' ->
      let n := Z.of_nat (stochastic_calls (workers sys) schedule) in
      totalSteps (shared sys') = wrap (totalSteps (shared sys) + n) /\
      (totalSteps (shared sys) + n < size_t_modulus ->
       totalSteps (shared sys') = totalSteps (shared sys) + n)).
Proof.
  split; [exact Step_totalSteps|].
  intros schedule sys sys' Hc HR n.
  pose proof (sys_run_totalSteps _ _ _ Hc HR) as Hn. fold n in Hn.
  split; [exact Hn|]. intros Hlt. rewrite Hn. apply wrap_small.
  unfold is_size_t in Hc. lia.
Qed.

(** ** The episode return *)

(** C9. A call that returns false, in either mode, leaves [totalReward] as it
    was; a call that returns true stores the episode return in it: the return
    accumulated so far plus the reward of this step. *)
Theorem totalReward_written_only_at_episode_end w s b w' s' :
  Step w s = Done (b, w', s') ->
  (b = false -> totalReward s' = totalReward s) /\
  (b = true ->
   totalReward s' = d_add (episodeReturn w) (env_answer w s).1.1).
Proof.
  intros HS. destruct (interact_shared_frame w s) as (_ & _ & _ & _ & Hr).
  pose proof (interact_episodeReturn w s) as Her.
  rewrite interact_reward in Her.
  apply Step_Done in HS as [[_ HS] | [_ HS]].
  - apply Step_deterministic_result in HS.
    destruct HS as (_&_&_&_&_&_&_&_&_&_&_& ->).
    split; intros ->; congruence.
  - apply Step_stochastic_Done in HS as (w1 & w2 & s2 & s3 & Ha & Hf & Hy & Hfin).
    destruct (buffer_phase _ _ _ _ _ _ Ha Hf) as (_&_&_& He2 &_&_&_&_& Hr2).
    apply sync_target_frame in Hy as (_ & _ & _ & Hr3 & _).
    apply finish_result in Hfin. destruct Hfin as (_&_&_&_&_&_&_&_&_&_&_&_& ->).
    fields. split; intros ->; congruence.
Qed.

(** ** The gradient of a flush *)

Lemma mat_add_Done (A B T : mat D) :
  mat_add A B = Done T ->
  n_rows B = n_rows A /\ n_cols B = n_cols A /\
  T = Mat (n_rows A) (n_cols A) (zip_with d_add (mem A) (mem B)).
Proof.
  unfold mat_add.
  destruct (n_rows A =? n_rows B)%nat eqn:Hr; [|discriminate].
  destruct (n_cols A =? n_cols B)%nat eqn:Hc; [|discriminate].
  apply Nat.eqb_eq in Hr, Hc. intros [= <-]. auto.
Qed.

(** Element [j] of the sum is the sum of the elements [j], added in the order
    of the loop. *)
Lemma mat_sum_lookup (acc T : mat D) gs j a :
  mat_sum acc gs = Done T ->
  mat_wf acc -> Forall mat_wf gs ->
  mem acc !! j = Some a ->
  mem T !! j
  = Some (fold_left d_add ((fun g => nth j (mem g) d_zero) <$> gs) a).
Proof.
  revert acc a. induction gs as [|g gs IH]; intros acc a; simpl.
  - intros [= <-] _ _ Hj. exact Hj.
  - intros HS Hwf Hall Hj. apply bind_Done in HS as (acc1 & Ha & HS).
    apply mat_add_Done in Ha as (Hr & Hc & ->).
    inversion Hall as [|g' gs' Hg Hgs]; subst.
    unfold mat_wf in Hwf, Hg.
    assert (length (mem g) = length (mem acc)) as Hlen by congruence.
    destruct (mem g !! j) as [x|] eqn:Hx.
    2:{ apply lookup_ge_None in Hx. apply lookup_lt_Some in Hj. lia. }
    apply (IH _ (d_add a x)) in HS; auto.
    + rewrite HS. do 3 f_equal. rewrite nth_lookup, Hx. reflexivity.
    + unfold mat_wf. cbn [mem n_rows n_cols].
      rewrite length_zip_with. lia.
    + cbn [mem]. rewrite lookup_zip_with, Hj, Hx. reflexivity.
Qed.

Lemma flush_loop_visits cfg term size k rest net tnet acc T net' tnet' :
  flush_loop cfg term size k rest net tnet acc = Done (T, net', tnet') ->
  exists vs,
    flush_visits cfg term size k rest net tnet = Done vs /\
    length vs = length rest /\
    mat_sum acc (v_gradient <$> vs) = Done T.
Proof.
  revert k net tnet acc.
  induction rest as [|tr rest IH]; intros k net tnet acc; simpl.
  - intros [= <- <- <-]. exists []. auto.
  - intros HL. apply bind_Done in HL as (g & Hg & HL).
    apply bind_Done in HL as (acc1 & Ha & HL).
    apply IH in HL as (vs & Hvs & Hlen & Hsum).
    pose proof Hg as Hg'. unfold transition_gradient in Hg'.
    apply bind_Done in Hg' as (t & Ht & _).
    rewrite Ht. cbn [bind]. rewrite Hg. cbn [bind]. rewrite Hvs. cbn [bind].
    eexists. split; [reflexivity|]. split; [simpl; congruence|].
    simpl. rewrite Ha. exact Hsum.
Qed.

(** The clamp leaves nothing below [-limit] or above [limit], whenever [<] is
    irreflexive and [limit] is not below [-limit]. *)
Lemma clamp_within (limit x : D) :
  (forall y : D, d_ltb y y = false) ->
  d_ltb limit (d_opp limit) = false ->
  d_ltb (clamp limit x) (d_opp limit) = false /\
  d_ltb limit (clamp limit x) = false.
Proof.
  intros Hirr Hlim. unfold clamp, std_min, std_max.
  destruct (d_ltb x (d_opp limit)) eqn:H1.
  - rewrite Hlim. auto.
  - destruct (d_ltb limit x) eqn:H2; auto.
Qed.

(** ** The target network *)

(** A successful call in stochastic mode, phase by phase, from the state in
    which the flush is decided. *)
Lemma Step_stochastic_phases w s b w' s' :
  Step w s = Done (b, w', s') -> deterministic w = false ->
  exists i w1 s1 w2 s2 s3,
    before_flush w s = Done (i, w1, s1) /\
    (if flush_due (terminal i) w1 then flush (terminal i) w1 s1
     else Done (w1, s1)) = Done (w2, s2) /\
    sync_target w2 s2 = Done s3 /\
    finish i w2 (anneal s3) = (b, w', s') /\
    config w1 = config w /\ config w2 = config w /\
    updatePolicy w1 = updatePolicy w /\
    steps w2 = wrap (steps w + 1) /\
    learningNetwork s1 = learningNetwork s /\
    totalSteps s1 = wrap (totalSteps s + 1) /\ totalSteps s2 = totalSteps s1 /\
    policy s2 = policy s.
Proof.
  intros HS Hdet.
  destruct (interact_worker_frame w s) as (Hc & _ & Hu & _).
  destruct (interact_shared_frame w s) as (Hl & _ & Hn & Hpo & _).
  pose proof (interact_steps w s) as Hst.
  apply Step_Done in HS as [[Hd _] | [_ HS]]; [congruence|].
  apply Step_stochastic_Done in HS as (w1 & w2 & s2 & s3 & Ha & Hf & Hy & Hfin).
  exists (interact w s).1.1, w1, (count_step (interact w s).2), w2, s2, s3.
  destruct (buffer_phase _ _ _ _ _ _ Ha Hf) as (Hc2 & _ & Hs2 & _ & _ & _ & Hn2 & Hp2 & _).
  unfold before_flush. cbv zeta. rewrite Ha. cbn [bind].
  apply append_pending_Done in Ha as [_ Hw1].
  split; [reflexivity|]. split; [exact Hf|]. split; [exact Hy|].
  split; [exact Hfin|]. rewrite Hw1. fields.
  rewrite Hc2, Hs2, Hn2, Hp2, Hc, Hu, Hl, Hn, Hpo, Hst. auto 15.
Qed.

Lemma Step_sync w s b w' s' :
  Step w s = Done (b, w', s') -> deterministic w = false ->
  exists i w1 s1 w2 s2,
    before_flush w s = Done (i, w1, s1) /\
    (if flush_due (terminal i) w1 then flush (terminal i) w1 s1
     else Done (w1, s1)) = Done (w2, s2) /\
    learningNetwork s' = learningNetwork s2 /\
    totalSteps s' = wrap (totalSteps s + 1) /\
    targetNetwork s'
    = if totalSteps s' mod TargetNetworkSyncInterval (config w) =? 0
      then learningNetwork s' else targetNetwork s2.
Proof.
  intros HS Hdet.
  apply Step_stochastic_phases in HS
    as (i & w1 & s1 & w2 & s2 & s3 & Hbf & Hf & Hy & Hfin & _ & Hc2 & _ & _ & _
        & Hn1 & Hn2 & _); [|exact Hdet].
  exists i, w1, s1, w2, s2. split; [exact Hbf|]. split; [exact Hf|].
  apply sync_target_Done in Hy as [_ ->].
  apply finish_result in Hfin. destruct Hfin as (_&_&_&_&_&_&_&_& -> & -> & -> &_).
  unfold sync_due. rewrite Hc2.
  destruct (totalSteps s2 mod _ =? 0) eqn:Hm; fields;
    rewrite ?Hm, Hn2, Hn1; auto.
Qed.

Lemma sys_Step_quiet k sys sys' :
  sys_Step k sys = Done sys' -> stochastic (workers sys) k = false ->
  learningNetwork (shared sys') = learningNetwork (shared sys) /\
  targetNetwork (shared sys') = targetNetwork (shared sys) /\
  totalSteps (shared sys') = totalSteps (shared sys).
Proof.
  intros HS. unfold stochastic.
  apply sys_Step_Done in HS as [[_ ->] | (w & b & w' & s' & -> & HS & ->)]; [auto|].
  intros Hd. apply negb_false_iff in Hd. cbn [shared].
  destruct (interact_shared_frame w (shared sys)) as (Hl & Ht & Hn & _).
  apply Step_Done in HS as [[_ HS] | [Hd' _]]; [|congruence].
  apply Step_deterministic_result in HS.
  destruct HS as (_&_&_&_&_&_&_& -> & -> & -> &_). auto.
Qed.

Lemma sys_Step_same_interval I k sys sys' :
  sys_Step k sys = Done sys' ->
  Forall (same_interval I) (workers sys) ->
  Forall (same_interval I) (workers sys').
Proof.
  intros HS Hall.
  apply sys_Step_Done in HS as [[_ ->] | (w & b & w' & s' & Hk & HS & ->)]; [auto|].
  cbn [workers]. apply Forall_insert; [exact Hall|].
  apply Step_bookkeeping in HS as (_ & Hc & _).
  unfold same_interval. rewrite Hc.
  eapply (Forall_lookup_1 _ _ _ _ Hall Hk).
Qed.

Lemma sys_Step_sync I k sys sys' :
  sys_Step k sys = Done sys' -> stochastic (workers sys) k = true ->
  Forall (same_interval I) (workers sys) ->
  totalSteps (shared sys') mod I = 0 ->
  targetNetwork (shared sys') = learningNetwork (shared sys').
Proof.
  intros HS. unfold stochastic.
  apply sys_Step_Done in HS as [[-> _] | (w & b & w' & s' & Hk & HS & ->)];
    [discriminate|].
  rewrite Hk. intros Hd Hall Hm. apply negb_true_iff in Hd. cbn [shared] in *.
  apply Step_sync in HS as (i & w1 & s1 & w2 & s2 & _ & _ & _ & _ & Ht); [|exact Hd].
  rewrite (Forall_lookup_1 _ _ _ _ Hall Hk) in Ht.
  apply Z.eqb_eq in Hm. now rewrite Hm in Ht.
Qed.

Lemma sys_run_quiet schedule sys sys' :
  sys_run schedule sys = Done sys' ->
  stochastic_calls (workers sys) schedule = 0%nat ->
  learningNetwork (shared sys') = learningNetwork (shared sys) /\
  targetNetwork (shared sys') = targetNetwork (shared sys) /\
  totalSteps (shared sys') = totalSteps (shared sys).
Proof.
  revert sys. induction schedule as [|k schedule IH]; intros sys HR Hq.
  - injection HR as <-. auto.
  - simpl in HR. apply bind_Done in HR as (sys1 & H1 & HR).
    cbn [stochastic_calls] in Hq.
    destruct (stochastic (workers sys) k) eqn:Hk; [discriminate|].
    rewrite <- (stochastic_calls_ext _ _ schedule
                  (fun j => sys_Step_stochastic _ _ _ j H1)) in Hq.
    destruct (IH _ HR Hq) as (-> & -> & ->).
    now apply (sys_Step_quiet k).
Qed.

(** Whenever the counter stands at a multiple of the interval after a run with
    a call in stochastic mode, the target network is the learning network. *)
Lemma sys_run_sync I schedule sys sys' :
  sys_run schedule sys = Done sys' ->
  Forall (same_interval I) (workers sys) ->
  (0 < stochastic_calls (workers sys) schedule)%nat ->
  totalSteps (shared sys') mod I = 0 ->
  targetNetwork (shared sys') = learningNetwork (shared sys').
Proof.
  revert sys. induction schedule as [|k schedule IH]; intros sys HR Hall Hpos Hm.
  - simpl in Hpos. lia.
  - simpl in HR. apply bind_Done in HR as (sys1 & H1 & HR).
    pose proof (sys_Step_same_interval _ _ _ _ H1 Hall) as Hall1.
    cbn [stochastic_calls] in Hpos.
    rewrite <- (stochastic_calls_ext _ _ schedule
                  (fun j => sys_Step_stochastic _ _ _ j H1)) in Hpos.
    destruct (stochastic_calls (workers sys1) schedule) as [|n] eqn:Hrest.
    + destruct (stochastic (workers sys) k) eqn:Hk; [|simpl in Hpos; lia].
      destruct (sys_run_quiet _ _ _ HR Hrest) as (-> & -> & Hn).
      rewrite Hn in Hm. eapply sys_Step_sync; eauto.
    + apply (IH sys1); auto. lia.
Qed.

(** When all workers use one interval [I] and the counter starts at 0, a run
    of whole calls, exactly [I] of them in stochastic mode, ends with the
    counter at [I] and the target network equal to the learning network. *)
Lemma sys_run_sync_at_interval I schedule sys sys' :
  0 < I < size_t_modulus ->
  Forall (same_interval I) (workers sys) ->
  totalSteps (shared sys) = 0 ->
  Z.of_nat (stochastic_calls (workers sys) schedule) = I ->
  sys_run schedule sys = Done sys' ->
  totalSteps (shared sys') = I /\
  targetNetwork (shared sys') = learningNetwork (shared sys').
Proof.
  intros HI Hall H0 Hcount HR.
  assert (totalSteps (shared sys') = I) as Hn.
  { rewrite (sys_run_totalSteps _ _ _ (ltac:(rewrite H0; unfold is_size_t; lia)) HR).
    rewrite H0, Hcount. apply wrap_small. lia. }
  split; [exact Hn|].
  apply (sys_run_sync I _ _ _ HR Hall); [lia|].
  rewrite Hn. apply Z_mod_same_full.
Qed.

(** ** The order of the phases *)

(** A call in stochastic mode that both flushes and syncs is the flush, then
    the sync, then [Anneal], then the end of the call, each on what the one
    before left; the target network ends as the learning network the
    optimizer's update left. *)
Lemma Step_flush_sync_phases w s b w' s' :
  Step w s = Done (b, w', s') -> deterministic w = false ->
  exists i w1 s1,
    before_flush w s = Done (i, w1, s1) /\
    (flush_due (terminal i) w1 = true -> sync_due w1 s1 = true ->
     exists T net tnet w2 s2 s3,
       flush_loop (config w1) (terminal i) (Z.of_nat (length (pending w1))) 0
         (pending w1) (network w1) (targetNetwork s1)
         (mat_zeros (n_rows (Parameters (learningNetwork s)))
                    (n_cols (Parameters (learningNetwork s))))
       = Done (T, net, tnet) /\
       let updated :=
         set_Parameters (learningNetwork s)
           (Update (updatePolicy w) (Parameters (learningNetwork s))
              (StepSize (config w))
              (mat_transform (clamp (GradientLimit (config w))) T)).1 in
       flush (terminal i) w1 s1 = Done (w2, s2) /\
       learningNetwork s2 = updated /\
       network w2 = updated /\
       targetNetwork s2 = tnet /\
       sync_target w2 s2 = Done s3 /\
       targetNetwork s3 = updated /\
       learningNetwork s3 = updated /\
       policy s3 = policy s /\
       steps w2 = wrap (steps w + 1) /\
       finish i w2 (anneal s3) = (b, w', s') /\
       targetNetwork s' = updated /\
       learningNetwork s' = updated /\
       network w' = updated /\
       policy s' = Anneal (policy s) /\
       (b = true -> w' = Reset w2)).
Proof.
  intros HS Hdet.
  apply Step_stochastic_phases in HS
    as (i & w1 & s1 & w2 & s2 & s3 & Hbf & Hf & Hy & Hfin & Hc1 & Hc2 & Hu1 & Hst
        & Hl1 & Hn1 & Hn2 & Hp2); [|exact Hdet].
  exists i, w1, s1. split; [exact Hbf|]. intros Hdue Hsync.
  rewrite Hdue in Hf.
  destruct (flush_Done _ _ _ _ _ Hf) as (T & net & tnet & Hloop & Hs2 & Hw2).
  cbv zeta in Hs2, Hw2. rewrite ?Hl1, ?Hc1 in Hs2, Hw2, Hloop.
  rewrite Hu1 in Hs2, Hw2.
  exists T, net, tnet, w2, s2, s3.
  split; [rewrite Hc1; exact Hloop|]. cbv zeta.
  split; [exact Hf|].
  assert (sync_due w2 s2 = true) as Hsync2.
  { unfold sync_due in *. now rewrite Hc2, Hn2, <- Hc1. }
  pose proof Hy as Hy'. apply sync_target_Done in Hy' as [_ Hs3].
  rewrite Hsync2 in Hs3.
  pose proof Hfin as Hfin'. apply finish_result in Hfin'.
  destruct Hfin' as (Hb & _ & _ & _ & Hnet & _ & _ & _ & Hl' & Ht' & _ & Hp' & _).
  assert (learningNetwork s2
          = set_Parameters (learningNetwork s)
              (Update (updatePolicy w) (Parameters (learningNetwork s))
                 (StepSize (config w))
                 (mat_transform (clamp (GradientLimit (config w))) T)).1) as HL
    by (rewrite Hs2; reflexivity).
  assert (network w2 = learningNetwork s2) as HN
    by (rewrite HL, Hw2; reflexivity).
  assert (targetNetwork s2 = tnet) as HT by (rewrite Hs2; reflexivity).
  assert (targetNetwork s3 = learningNetwork s2) as HT3
    by (rewrite Hs3; reflexivity).
  assert (learningNetwork s3 = learningNetwork s2) as HL3
    by (rewrite Hs3; reflexivity).
  assert (policy s3 = policy s) as HP3
    by (rewrite Hs3; fields; exact Hp2).
  rewrite Hl', Ht', Hnet, Hp'. fields. rewrite HN, HT3, HL3, HP3, HL.
  repeat (split; [first [reflexivity | assumption]|]).
  intros ->. unfold finish in Hfin. rewrite <- Hb in Hfin.
  now injection Hfin as <- _.
Qed.

(** ** Which transitions a flush visits *)

Lemma flush_visits_indices cfg term size k rest net tnet vs :
  flush_visits cfg term size k rest net tnet = Done vs ->
  v_index <$> vs = seqZ k (Z.of_nat (length rest)).
Proof.
  revert k net tnet vs.
  induction rest as [|tr rest IH]; intros k net tnet vs; simpl length.
  - intros [= <-]. reflexivity.
  - cbn [flush_visits]. intros HV.
    apply bind_Done in HV as (t & _ & HV).
    apply bind_Done in HV as (g & _ & HV).
    apply bind_Done in HV as (vs' & HV & [= <-]).
    apply IH in HV. rewrite fmap_cons, HV. cbn [v_index].
    rewrite (seqZ_cons k) by lia. do 2 f_equal. lia.
Qed.

(** The loop of the flush runs over the whole of [pending], from index 0 to
    [pending.size() - 1], whatever [pendingIndex] is. *)
Lemma flush_visits_whole_buffer term w s w' s' :
  flush term w s = Done (w', s') ->
  exists vs,
    code_flush_visits term w s = Done vs /\
    v_index <$> vs = seqZ 0 (Z.of_nat (length (pending w))).
Proof.
  intros Hf. apply flush_Done in Hf as (T & net & tnet & Hloop & _).
  apply flush_loop_visits in Hloop as (vs & Hvs & _).
  exists vs. split; [exact Hvs|]. now apply flush_visits_indices in Hvs.
Qed.

(** When the buffer is full the loop of the source and the flush of the spec
    visit the same transitions with the same targets; they part only on a
    flush that a terminal step triggers before the buffer is full. *)
Lemma flush_visits_agree_when_full term w s :
  pendingIndex w = Z.of_nat (length (pending w)) ->
  code_flush_visits term w s = spec_flush_visits term w s.
Proof.
  intros Hfull. unfold code_flush_visits, spec_flush_visits.
  rewrite Hfull, Nat2Z.id, take_ge by lia. reflexivity.
Qed.

(** ** Calls with defined behaviour *)

Section Defined.

Variables r c : nat.
Hypothesis Hok : collaborators_ok r c.

Lemma begin_episode_action w s :
  (action w <= Action_size)%nat ->
  (action (begin_episode w s).1 < Action_size)%nat.
Proof using Hok.
  intros Ha. unfold begin_episode.
  destruct (Nat.eqb_spec (action w) Action_size) as [_|Hne]; cbn [fst]; fields.
  - apply (Sample_valid _ _ Hok).
  - lia.
Qed.

Lemma interact_actions w s :
  (action w <= Action_size)%nat ->
  (action (interact w s).1.2 < Action_size)%nat /\
  (nextAction (interact w s).1.1 < Action_size)%nat.
Proof using Hok.
  intros Ha. destruct (interact_state_action w s) as (_ & ->).
  split; [now apply begin_episode_action|].
  unfold interact. fields. apply (Sample_valid _ _ Hok).
Qed.

Lemma transition_gradient_defined cfg term size k tr net tnet :
  transition_ok tr ->
  exists g net' tnet',
    transition_gradient cfg term size k tr net tnet = Done (g, net', tnet') /\
    n_rows g = r /\ n_cols g = c.
Proof using Hok.
  intros [Hact Hnext]. unfold transition_gradient, target_value, bootstrap_value.
  assert (exists b,
             (if negb (term && (k =? wrap (size - 1)))
              then vec_get (Predict tnet (Encode (tr_nextState tr))).1
                     (tr_nextAction tr)
              else Done d_zero) = Done b) as [b ->].
  { destruct (negb _); [|eauto]. apply vec_get_defined.
    now rewrite (Predict_length _ _ Hok). }
  cbn [bind]. unfold vec_set. rewrite (Forward_length _ _ Hok).
  replace (tr_action tr <? Action_size)%nat with true
    by (symmetry; now apply Nat.ltb_lt).
  cbn [bind]. eexists _, _, _. split; [reflexivity|].
  apply (Backward_shape _ _ Hok).
Qed.

Lemma flush_loop_defined cfg term size k rest net tnet acc :
  Forall transition_ok rest -> n_rows acc = r -> n_cols acc = c ->
  exists T net' tnet',
    flush_loop cfg term size k rest net tnet acc = Done (T, net', tnet').
Proof using Hok.
  revert k net tnet acc.
  induction rest as [|tr rest IH]; intros k net tnet acc Hall Hr Hc.
  - simpl. eauto.
  - pose proof (Forall_inv Hall) as Htr. pose proof (Forall_inv_tail Hall) as Hrest.
    destruct (transition_gradient_defined cfg term size k tr net tnet Htr)
      as (g & net' & tnet' & Hg & Hgr & Hgc).
    cbn [flush_loop]. rewrite Hg. cbn [bind fst snd]. unfold mat_add.
    rewrite Hgr, Hgc, <- Hr, <- Hc, !Nat.eqb_refl. cbn [andb bind].
    apply IH; auto.
Qed.

Lemma flush_defined term w s :
  Forall transition_ok (pending w) ->
  exists w' s', flush term w s = Done (w', s').
Proof using Hok.
  intros Hall. unfold flush. cbv zeta.
  destruct (Parameters_shape _ _ Hok (learningNetwork s)) as [Hr Hc].
  destruct (flush_loop_defined (config w) term (Z.of_nat (length (pending w))) 0
              (pending w) (network w) (targetNetwork s)
              (mat_zeros (n_rows (Parameters (learningNetwork s)))
                 (n_cols (Parameters (learningNetwork s)))) Hall Hr Hc)
    as (T & net' & tnet' & ->).
  cbn [bind]. eauto.
Qed.

(** X1. With collaborators as [collaborators_ok] says, and a worker as
    [worker_ok] says: [pendingIndex] a valid index of a buffer of capacity
    [UpdateInterval], the buffer holding actions only, the current [action]
    an action or the mark [ActionType::size] (the constructor does not write
    it), and a sync interval that is not 0; then a call of [Step] has defined
    behaviour and leaves the worker in such a state again. *)
Lemma Step_defined w s :
  worker_ok w ->
  exists b w' s', Step w s = Done (b, w', s') /\ worker_ok w'.
Proof using Hok.
  intros (Hbuf & Hact & Hall & Hint).
  destruct (interact_actions w s Hact) as (Ha & Hn).
  destruct (interact_worker_frame w s) as (Hc & Hd & _ & Hp & Hi).
  assert (exists b w' s', Step w s = Done (b, w', s') /\
            (action w' <= Action_size)%nat /\ Forall transition_ok (pending w'))
    as (b & w' & s' & HS & Ha' & Hall').
  { unfold Step. cbv zeta. destruct (deterministic (interact w s).1.2).
    - destruct (Step_deterministic _ _ _) as [[b w'] s'] eqn:E.
      exists b, w', s'. split; [reflexivity|].
      rewrite (Step_deterministic_action _ _ _ _ _ _ E).
      apply Step_deterministic_result in E as (_ & _ & _ & -> & _).
      rewrite Hp. split; [destruct b; lia | exact Hall].
    - unfold Step_stochastic. cbv zeta.
      destruct (before_flush_Done w s Hbuf) as (w1 & _ & Happ & Hc1 & _ & _ & _).
      rewrite Happ. cbn [bind].
      apply append_pending_Done in Happ as [_ Hw1].
      assert (Forall transition_ok (pending w1)) as Hall1.
      { rewrite Hw1. fields. rewrite Hp. apply Forall_insert; [exact Hall|].
        split; assumption. }
      assert (exists w2 s2,
                 (if flush_due (terminal (interact w s).1.1) w1
                  then flush (terminal (interact w s).1.1) w1
                         (count_step (interact w s).2)
                  else Done (w1, count_step (interact w s).2)) = Done (w2, s2) /\
                 pending w2 = pending w1 /\ config w2 = config w1)
        as (w2 & s2 & -> & Hp2 & Hc2).
      { destruct (flush_due _ w1); [|eauto].
        destruct (flush_defined (terminal (interact w s).1.1) w1
                    (count_step (interact w s).2) Hall1) as (w2 & s2 & Hf).
        exists w2, s2. split; [exact Hf|].
        apply flush_worker_frame in Hf. tauto. }
      cbn [bind fst snd]. unfold sync_target.
      rewrite Hc2, Hc1. apply Z.eqb_neq in Hint. rewrite Hint.
      assert (exists s3, (if sync_due w2 s2
                          then Done (set_targetNetwork (learningNetwork s2) s2)
                          else Done s2) = Done s3) as [s3 ->]
        by (destruct (sync_due w2 s2); eauto).
      cbn [bind]. destruct (finish _ _ _) as [[b w'] s'] eqn:E.
      exists b, w', s'. split; [reflexivity|].
      rewrite (finish_action _ _ _ _ _ _ E).
      apply finish_result in E as (_ & _ & _ & -> & _).
      rewrite Hp2. split; [destruct b; lia | exact Hall1]. }
  exists b, w', s'. split; [exact HS|].
  pose proof (Step_keeps_buffer_ok _ _ _ _ _ Hbuf HS) as Hbuf'.
  apply Step_bookkeeping in HS as (_ & Hc' & _).
  unfold worker_ok. rewrite Hc'. auto.
Qed.

End Defined.

(** * Further properties of [Step] *)

(** ** Edges of the configuration *)

(** X3. A call writes past the buffer, and stops there, exactly when the
    worker is in stochastic mode and [pendingIndex] is not an index of
    [pending]; so with a buffer of no capacity every call in stochastic mode
    does.  A call in deterministic mode never does. *)
Theorem Step_PendingOutOfRange_iff w s :
  Step w s = Undefined PendingOutOfRange <->
  deterministic w = false /\
  ~ 0 <= pendingIndex w < Z.of_nat (length (pending w)).
Proof.
  split; [apply Step_PendingOutOfRange|].
  intros [Hdet Hout].
  destruct (interact_worker_frame w s) as (_ & Hd & _ & Hp & Hi).
  unfold Step. cbv zeta. rewrite Hd, Hdet.
  unfold Step_stochastic, append_pending. cbv zeta. rewrite Hp, Hi.
  destruct (0 <=? pendingIndex w) eqn:H0;
    destruct (pendingIndex w <? Z.of_nat (length (pending w))) eqn:H1;
    try reflexivity.
  apply Z.leb_le in H0. apply Z.ltb_lt in H1. lia.
Qed.

(** X15. With a step limit of 0 every call that returns returns true: each
    episode is one step long, whatever the environment says. *)
Theorem StepLimit_zero_ends_every_episode w s b w' s' :
  StepLimit (config w) = 0 ->
  Step w s = Done (b, w', s') ->
  b = true.
Proof.
  intros H0 HS. apply Step_bookkeeping in HS as (-> & _).
  rewrite interact_terminal, H0. apply orb_true_iff. right.
  apply Z.leb_le. unfold wrap. apply Z.mod_pos_bound. reflexivity.
Qed.


(** X13. Whatever the calls and whatever they return, [Step] never changes the
    worker's configuration, never switches its mode and never resizes its
    buffer. *)
Theorem Step_never_reconfigures w0 w :
  reachable w0 w ->
  config w = config w0 /\
  deterministic w = deterministic w0 /\
  length (pending w) = length (pending w0).
Proof.
  intros Hr. induction Hr as [|w s b w' s' _ IH HS]; [auto|].
  destruct IH as (Hc & Hd & Hl).
  apply Step_bookkeeping in HS as (_ & Hc' & Hd' & Hl' & _).
  split; [congruence|]. split; congruence.
Qed.

(** ** Calls that do not flush, calls that do *)

Lemma finish_false i w s w' s' :
  finish i w s = (false, w', s') ->
  terminal i = false /\
  w' = set_action (nextAction i) (set_state (nextState i) w) /\ s' = s.
Proof.
  unfold finish. destruct (terminal i); intros [= <- <-]; auto.
Qed.

Lemma Step_deterministic_false i w s w' s' :
  Step_deterministic i w s = (false, w', s') ->
  terminal i = false /\
  w' = set_action (nextAction i) (set_state (nextState i) w) /\ s' = s.
Proof.
  unfold Step_deterministic. destruct (terminal i); intros [= <- <-]; auto.
Qed.

(** A call in stochastic mode that neither ends the episode nor fills the
    buffer, phase by phase. *)
Lemma Step_stochastic_no_flush i w s w' s' :
  Step_stochastic i w s = Done (false, w', s') ->
  wrap (pendingIndex w + 1) < UpdateInterval (config w) ->
  0 <= pendingIndex w < Z.of_nat (length (pending w)) /\
  pending w'
  = <[Z.to_nat (pendingIndex w) :=
        {| tr_state := state w; tr_action := action w;
           tr_reward := reward i; tr_nextState := nextState i;
           tr_nextAction := nextAction i |}]> (pending w) /\
  pendingIndex w' = wrap (pendingIndex w + 1) /\
  network w' = network w /\ updatePolicy w' = updatePolicy w /\
  environment w' = environment w /\
  state w' = nextState i /\ action w' = nextAction i /\
  episodeReturn w' = episodeReturn w /\
  learningNetwork s' = learningNetwork s /\
  targetNetwork s'
  = (if wrap (totalSteps s + 1) mod TargetNetworkSyncInterval (config w) =? 0
     then learningNetwork s else targetNetwork s) /\
  policy s' = Anneal (policy s) /\
  totalReward s' = totalReward s.
Proof.
  intros HS Hlt.
  apply Step_stochastic_Done in HS as (w1 & w2 & s2 & s3 & Ha & Hf & Hy & Hfin).
  apply finish_false in Hfin as (Ht & -> & ->).
  apply append_pending_Done in Ha as [Hr Hw1].
  assert (flush_due (terminal i) w1 = false) as Hdue.
  { unfold flush_due. rewrite Ht, Hw1. simpl. apply Z.leb_gt. exact Hlt. }
  rewrite Hdue in Hf. injection Hf as <- <-.
  apply sync_target_Done in Hy as [_ ->].
  split; [exact Hr|]. unfold sync_due. rewrite Hw1. simpl.
  destruct (_ mod _ =? 0); simpl; auto 15.
Qed.




(** ** Within an episode *)

(** What a call that does not end the episode leaves in the worker. *)
Lemma Step_false_worker w s w' s' :
  Step w s = Done (false, w', s') ->
  state w' = (env_answer w s).1.2 /\
  action w' = nextAction (interact w s).1.1 /\
  episodeReturn w' = d_add (episodeReturn w) (env_answer w s).1.1.
Proof.
  intros HS. pose proof (interact_episodeReturn w s) as He.
  rewrite interact_reward in He. rewrite <- interact_nextState.
  apply Step_Done in HS as [[_ HS] | [_ HS]].
  - apply Step_deterministic_false in HS as (_ & -> & _). simpl. auto.
  - apply Step_stochastic_Done in HS as (w1 & w2 & s2 & s3 & Ha & Hf & _ & Hfin).
    destruct (buffer_phase _ _ _ _ _ _ Ha Hf) as (_ & _ & _ & He2 & _).
    apply finish_false in Hfin as (_ & -> & _). simpl.
    rewrite He2. auto.
Qed.

Lemma episode_rewards_sum w0 rs w :
  episode_rewards w0 rs w ->
  episodeReturn w = fold_left d_add rs (episodeReturn w0).
Proof.
  intros Hrun. induction Hrun as [|rs w s w' s' _ IH HS]; [reflexivity|].
  apply Step_false_worker in HS as (_ & _ & ->).
  rewrite fold_left_app, IH. reflexivity.
Qed.

(** X4. Within an episode the worker's [episodeReturn] is the sum of the
    rewards of the steps so far, added one at a time in the order of the calls
    to the value it had at the start; and the call that ends the episode
    stores in [totalReward] that sum with the last reward added. *)
Theorem episodeReturn_is_running_sum w0 rs w :
  episode_rewards w0 rs w ->
  episodeReturn w = fold_left d_add rs (episodeReturn w0) /\
  forall s w' s',
    Step w s = Done (true, w', s') ->
    totalReward s'
    = fold_left d_add (rs ++ [(env_answer w s).1.1]) (episodeReturn w0).
Proof.
  intros Hrun. pose proof (episode_rewards_sum _ _ _ Hrun) as Hsum.
  split; [exact Hsum|]. intros s w' s' HS.
  pose proof (interact_episodeReturn w s) as He. rewrite interact_reward in He.
  destruct (interact_shared_frame w s) as (_ & _ & _ & _ & Hr).
  rewrite fold_left_app, <- Hsum. simpl.
  apply Step_Done in HS as [[_ HS] | [_ HS]].
  - apply Step_deterministic_result in HS.
    destruct HS as (_&_&_&_&_&_&_&_&_&_&_& ->). exact He.
  - apply Step_stochastic_Done in HS as (w1 & w2 & s2 & s3 & Ha & Hf & Hy & Hfin).
    destruct (buffer_phase _ _ _ _ _ _ Ha Hf) as (_ & _ & _ & He2 & _).
    apply finish_result in Hfin. destruct Hfin as (_&_&_&_&_&_&_&_&_&_&_&_& ->).
    congruence.
Qed.

(** X5. After a call that did not end the episode, provided the action it
    pre-selected is an action and not the mark of none, the next call samples
    no first action: it acts from the state the earlier call reached with the
    action the earlier call pre-selected, and in stochastic mode the
    transition it stores starts with that state and that action. *)
Theorem next_call_takes_preselected_action w s w1 s1 s2 :
  Step w s = Done (false, w1, s1) ->
  nextAction (interact w s).1.1 <> Action_size ->
  begin_episode w1 s2 = (w1, s2) /\
  env_answer w1 s2
  = env_Sample (environment w1) (env_answer w s).1.2
      (nextAction (interact w s).1.1) /\
  tr_state (stored_transition w1 s2) = (env_answer w s).1.2 /\
  tr_action (stored_transition w1 s2) = nextAction (interact w s).1.1.
Proof.
  intros HS Hne. apply Step_false_worker in HS as (Hst & Hac & _).
  assert (begin_episode w1 s2 = (w1, s2)) as Hbe.
  { unfold begin_episode. rewrite Hac.
    destruct (Nat.eqb_spec (nextAction (interact w s).1.1) Action_size);
      [contradiction | reflexivity]. }
  split; [exact Hbe|].
  unfold env_answer, stored_transition. cbv zeta. rewrite Hbe. cbn [fst tr_state tr_action].
  rewrite Hst, Hac. auto.
Qed.

(** ** The contents of the buffer *)

Lemma Step_no_flush_buffer w s w' s' :
  deterministic w = false ->
  Step w s = Done (false, w', s') ->
  wrap (pendingIndex w + 1) < UpdateInterval (config w) ->
  0 <= pendingIndex w < Z.of_nat (length (pending w)) /\
  pending w' = <[Z.to_nat (pendingIndex w) := stored_transition w s]> (pending w) /\
  pendingIndex w' = wrap (pendingIndex w + 1).
Proof.
  intros Hdet HS Hlt.
  destruct (interact_worker_frame w s) as (Hc & _ & _ & Hp & Hi).
  destruct (interact_state_action w s) as (Hst & Hac).
  apply Step_Done in HS as [[Hd _] | [_ HS]]; [congruence|].
  rewrite <- Hi, <- Hc in Hlt.
  apply Step_stochastic_no_flush in HS as (Hr & Hpend & Hpi & _); [|exact Hlt].
  rewrite Hpend, Hpi, Hst, Hac, Hp, Hi in *. auto.
Qed.

(** X11. From an empty buffer ([pendingIndex = 0]), after calls in stochastic
    mode none of which flushed, [pendingIndex] is the number of those calls
    and the first [pendingIndex] elements of [pending] are the transitions
    they stored, in the order of the calls. *)
Theorem pending_holds_the_stored_transitions w0 trs w :
  pendingIndex w0 = 0 ->
  Z.of_nat (length (pending w0)) < size_t_modulus ->
  buffered w0 trs w ->
  pendingIndex w = Z.of_nat (length trs) /\
  take (length trs) (pending w) = trs.
Proof.
  intros H0 Hmax Hrun.
  assert (length (pending w) = length (pending w0) /\
          pendingIndex w = Z.of_nat (length trs) /\
          take (length trs) (pending w) = trs) as (_ & Hpi & Htk);
    [|auto].
  induction Hrun as [|trs w s w' s' _ IH Hdet HS Hlt].
  - split; [reflexivity|]. split; [exact H0 | apply take_0].
  - destruct IH as (Hl & Hpi & Htk).
    destruct (Step_bookkeeping _ _ _ _ _ HS) as (_ & _ & _ & Hl' & _).
    destruct (Step_no_flush_buffer _ _ _ _ Hdet HS Hlt) as (Hr & -> & ->).
    rewrite wrap_small by lia.
    rewrite Hpi, Nat2Z.id, length_app. simpl length.
    split; [now rewrite length_insert|]. split; [lia|].
    rewrite Nat.add_1_r.
    rewrite (take_S_r _ _ (stored_transition w s)).
    + rewrite take_insert_ge by lia. now rewrite Htk.
    + apply list_lookup_insert_eq. lia.
Qed.

(** X12. When a call in stochastic mode fills the buffer (the index was one
    short of [UpdateInterval], the capacity), the flush visits exactly the
    indices below [pendingIndex], the buffered transitions, in their order,
    and the index at which a terminal step cuts the bootstrap value is
    [pendingIndex - 1], the transition of the call itself. *)
Theorem full_buffer_flush_visits_the_buffered w s b w' s' :
  buffer_ok w ->
  deterministic w = false ->
  pendingIndex w + 1 = UpdateInterval (config w) ->
  Step w s = Done (b, w', s') ->
  exists i w1 s1 vs,
    before_flush w s = Done (i, w1, s1) /\
    b = terminal i /\
    pendingIndex w1 = Z.of_nat (length (pending w1)) /\
    code_flush_visits (terminal i) w1 s1 = Done vs /\
    v_index <$> vs = seqZ 0 (pendingIndex w1) /\
    wrap (Z.of_nat (length (pending w1)) - 1) = pendingIndex w1 - 1 /\
    pending w1 !! Z.to_nat (pendingIndex w1 - 1) = Some (stored_transition w s).
Proof.
  intros Hok Hdet Hfull HS. pose proof Hok as (Hpi & Hlen & Hmax).
  destruct (before_flush_Done w s Hok) as (w1 & Hbf & _ & Hc1 & Hpi1 & Hl1 & Hlk).
  destruct (Step_bookkeeping _ _ _ _ _ HS) as (Hb & _).
  apply Step_stochastic_phases in HS
    as (i & w1' & s1 & w2 & s2 & s3 & Hbf' & Hf & _); [|exact Hdet].
  assert (i = (interact w s).1.1 /\ w1' = w1 /\
          s1 = count_step (interact w s).2) as (-> & -> & ->)
    by (repeat split; congruence).
  assert (pendingIndex w1 = Z.of_nat (length (pending w1))) as Hfull1
    by (rewrite Hpi1, Hl1; lia).
  assert (flush_due (terminal (interact w s).1.1) w1 = true) as Hdue.
  { unfold flush_due. rewrite Hc1. apply orb_true_iff. right.
    apply Z.leb_le. lia. }
  rewrite Hdue in Hf.
  apply flush_visits_whole_buffer in Hf as (vs & Hvs & Hidx).
  exists (interact w s).1.1, w1, (count_step (interact w s).2), vs.
  split; [exact Hbf|]. split; [exact Hb|]. split; [exact Hfull1|].
  split; [exact Hvs|]. split; [now rewrite Hfull1|].
  split; [rewrite <- Hfull1; apply wrap_small; lia|].
  rewrite Hpi1. replace (pendingIndex w + 1 - 1) with (pendingIndex w) by lia.
  exact Hlk.
Qed.

(** ** The behaviour policy *)

Lemma Step_policy w s b w' s' :
  Step w s = Done (b, w', s') ->
  policy s' = if deterministic w then policy s else Anneal (policy s).
Proof.
  intros HS. destruct (interact_shared_frame w s) as (_ & _ & _ & Hp & _).
  destruct (deterministic w) eqn:Hdet.
  - apply Step_Done in HS as [[_ HS] | [Hd _]]; [|congruence].
    apply Step_deterministic_result in HS.
    destruct HS as (_&_&_&_&_&_&_&_&_&_& -> &_). exact Hp.
  - apply Step_stochastic_phases in HS
      as (i & w1 & s1 & w2 & s2 & s3 & _ & _ & Hy & Hfin & _ & _ & _ & _ & _ & _
          & _ & Hp2); [|exact Hdet].
    apply sync_target_frame in Hy as (_ & _ & Hp3 & _).
    apply finish_result in Hfin. destruct Hfin as (_&_&_&_&_&_&_&_&_&_&_& -> &_).
    simpl. now rewrite Hp3, Hp2.
Qed.

Lemma sys_Step_policy k sys sys' :
  sys_Step k sys = Done sys' ->
  policy (shared sys')
  = if stochastic (workers sys) k then Anneal (policy (shared sys))
    else policy (shared sys).
Proof.
  intros HS. unfold stochastic.
  apply sys_Step_Done in HS as [[-> ->] | (w & b & w' & s' & -> & HS & ->)];
    [reflexivity|].
  apply Step_policy in HS. cbn [shared]. rewrite HS.
  now destruct (deterministic w).
Qed.

(** X6. Over any schedule of calls by any workers, the shared policy is
    annealed once for each call in stochastic mode and never by a call in
    deterministic mode: it ends as [Anneal] iterated, as many times as there
    were calls in stochastic mode, on the policy at the start. *)
Theorem policy_annealed_once_per_stochastic_call schedule sys sys' :
  sys_run schedule sys = Done sys' ->
  policy (shared sys')
  = Nat.iter (stochastic_calls (workers sys) schedule) Anneal (policy (shared sys)).
Proof.
  revert sys. induction schedule as [|k schedule IH]; intros sys HR.
  - injection HR as <-. reflexivity.
  - simpl in HR. apply bind_Done in HR as (sys1 & H1 & HR).
    rewrite (IH _ HR), (sys_Step_policy _ _ _ H1).
    rewrite (stochastic_calls_ext _ _ schedule
               (fun j => sys_Step_stochastic _ _ _ j H1)).
    cbn [stochastic_calls]. destruct (stochastic (workers sys) k).
    + rewrite <- Nat.iter_succ_r. reflexivity.
    + reflexivity.
Qed.

(** X14. A schedule on which no call is in stochastic mode (evaluation only)
    leaves the shared learning network, the shared target network, the step
    counter and the policy exactly as they were. *)
Theorem evaluation_leaves_training_state schedule sys sys' :
  stochastic_calls (workers sys) schedule = 0%nat ->
  sys_run schedule sys = Done sys' ->
  learningNetwork (shared sys') = learningNetwork (shared sys) /\
  targetNetwork (shared sys') = targetNetwork (shared sys) /\
  totalSteps (shared sys') = totalSteps (shared sys) /\
  policy (shared sys') = policy (shared sys).
Proof.
  revert sys. induction schedule as [|k schedule IH]; intros sys Hq HR.
  - injection HR as <-. auto.
  - simpl in HR. apply bind_Done in HR as (sys1 & H1 & HR).
    cbn [stochastic_calls] in Hq.
    destruct (stochastic (workers sys) k) eqn:Hk; [discriminate|].
    rewrite <- (stochastic_calls_ext _ _ schedule
                  (fun j => sys_Step_stochastic _ _ _ j H1)) in Hq.
    destruct (IH _ Hq HR) as (-> & -> & -> & ->).
    destruct (sys_Step_quiet _ _ _ H1 Hk) as (-> & -> & ->).
    rewrite (sys_Step_policy _ _ _ H1), Hk. auto.
Qed.

(** ** The clamp *)

(** X7. For a limit that is not below its opposite, and [<] irreflexive: the
    clamp of a value below [-limit] is [-limit], of a value above [limit] is
    [limit], of a value neither below [-limit] nor above [limit] is the value
    itself; and clamping twice is clamping once. *)
Theorem clamp_saturates (limit x : D) :
  (forall y : D, d_ltb y y = false) ->
  d_ltb limit (d_opp limit) = false ->
  (d_ltb x (d_opp limit) = true -> clamp limit x = d_opp limit) /\
  (d_ltb x (d_opp limit) = false -> d_ltb limit x = true ->
   clamp limit x = limit) /\
  (d_ltb x (d_opp limit) = false -> d_ltb limit x = false ->
   clamp limit x = x) /\
  clamp limit (clamp limit x) = clamp limit x.
Proof.
  intros Hirr Hlim.
  assert (forall y, d_ltb y (d_opp limit) = false -> d_ltb limit y = false ->
                    clamp limit y = y) as Hid.
  { intros y H1 H2. unfold clamp, std_min, std_max. now rewrite H1, H2. }
  split; [|split; [|split]].
  - intros H1. unfold clamp, std_min, std_max. now rewrite H1, Hlim.
  - intros H1 H2. unfold clamp, std_min, std_max. now rewrite H1, H2.
  - apply Hid.
  - destruct (clamp_within limit x Hirr Hlim) as [H1 H2]. now apply Hid.
Qed.

(** X8. A value that [<] relates to nothing, as a NaN, goes through the clamp
    unchanged, whatever the limit: such an element of the summed gradient
    reaches the optimizer as it is. *)
Theorem clamp_passes_unordered (limit x : D) (T : mat D) (j : nat) :
  (forall y : D, d_ltb x y = false /\ d_ltb y x = false) ->
  clamp limit x = x /\
  (mem T !! j = Some x -> mem (mat_transform (clamp limit) T) !! j = Some x).
Proof.
  intros Hun.
  assert (clamp limit x = x) as Hc.
  { unfold clamp, std_min, std_max.
    rewrite (proj1 (Hun (d_opp limit))), (proj2 (Hun limit)). reflexivity. }
  split; [exact Hc|]. intros Hj. cbn [mat_transform mem].
  rewrite list_lookup_fmap, Hj. simpl. now rewrite Hc.
Qed.

(** ** A sync interval of 0 *)


(** ** The target network and the gradient's shape *)



Lemma mat_sum_shape (acc T : mat D) gs :
  mat_sum acc gs = Done T ->
  n_rows T = n_rows acc /\ n_cols T = n_cols acc /\
  Forall (fun g => n_rows g = n_rows acc /\ n_cols g = n_cols acc) gs.
Proof.
  revert acc. induction gs as [|g gs IH]; intros acc; simpl.
  - intros [= <-]. auto.
  - intros HS. apply bind_Done in HS as (acc1 & Ha & HS).
    apply mat_add_Done in Ha as (Hr & Hc & ->).
    apply IH in HS as (Hr' & Hc' & Hall'). cbn [n_rows n_cols] in Hr', Hc', Hall'.
    auto.
Qed.

Lemma mat_sum_wf (acc T : mat D) gs :
  mat_sum acc gs = Done T ->
  mat_wf acc -> Forall mat_wf gs -> mat_wf T.
Proof.
  revert acc. induction gs as [|g gs IH]; intros acc; simpl.
  - intros [= <-] Hwf _. exact Hwf.
  - intros HS Hwf Hall. apply bind_Done in HS as (acc1 & Ha & HS).
    apply mat_add_Done in Ha as (Hr & Hc & ->).
    pose proof (Forall_inv Hall) as Hg. pose proof (Forall_inv_tail Hall) as Hgs.
    unfold mat_wf in Hwf, Hg.
    apply IH in HS; [exact HS | | exact Hgs].
    unfold mat_wf. cbn [mem n_rows n_cols]. rewrite length_zip_with. lia.
Qed.

(** X17. The gradient a flush hands to the optimizer has the shape of the
    learning network's parameters, and so had every per-transition gradient
    that was added; when each of those holds rows times columns elements, so
    does the gradient handed over. *)
Theorem flush_gradient_has_parameters_shape term w s w' s' :
  flush term w s = Done (w', s') ->
  let P := Parameters (learningNetwork s) in
  exists vs G,
    code_flush_visits term w s = Done vs /\
    learningNetwork s'
    = set_Parameters (learningNetwork s)
        (Update (updatePolicy w) P (StepSize (config w)) G).1 /\
    n_rows G = n_rows P /\ n_cols G = n_cols P /\
    Forall (fun g => n_rows g = n_rows P /\ n_cols g = n_cols P)
      (v_gradient <$> vs) /\
    (Forall mat_wf (v_gradient <$> vs) -> mat_wf G).
Proof.
  intros Hf P.
  apply flush_Done in Hf as (T & net & tnet & Hloop & Hs & _).
  apply flush_loop_visits in Hloop as (vs & Hvs & _ & Hsum).
  exists vs, (mat_transform (clamp (GradientLimit (config w))) T).
  split; [exact Hvs|]. split; [rewrite Hs; reflexivity|].
  destruct (mat_sum_shape _ _ _ Hsum) as (Hr & Hc & Hall).
  cbn [mat_zeros n_rows n_cols] in Hr, Hc, Hall.
  cbn [mat_transform n_rows n_cols].
  split; [exact Hr|]. split; [exact Hc|]. split; [exact Hall|].
  intros Hwf. apply (mat_sum_wf _ _ _ Hsum) in Hwf.
  - unfold mat_wf in *.
    change (length (clamp (GradientLimit (config w)) <$> mem T)
            = (n_rows T * n_cols T)%nat).
    rewrite length_fmap. exact Hwf.
  - unfold mat_wf, mat_zeros. cbn [mem n_rows n_cols]. apply length_replicate.
Qed.

(** ** The mark of no action *)

(** X19. A call that ends the episode leaves the mark of no action as the
    worker's action, so that the next call begins by sampling a first action
    from the local network's estimate at the worker's state. *)
Theorem ended_episode_samples_first_action w s w' s' s2 :
  Step w s = Done (true, w', s') ->
  action w' = Action_size /\
  action (begin_episode w' s2).1
  = (pol_Sample (policy s2) (Predict (network w') (Encode (state w'))).1
       (deterministic w') (rng s2)).1 /\
  env_answer w' s2
  = env_Sample (environment w') (state w') (action (begin_episode w' s2).1).
Proof.
  intros HS.
  assert (action w' = Action_size) as Ha.
  { apply Step_Done in HS as [[_ HS] | [_ HS]].
    - now apply Step_deterministic_action in HS.
    - apply Step_stochastic_Done in HS as (w1 & w2 & s2' & s3 & _ & _ & _ & Hfin).
      now apply finish_action in Hfin. }
  split; [exact Ha|].
  unfold env_answer, begin_episode. cbv zeta.
  rewrite Ha, Nat.eqb_refl. simpl. auto.
Qed.

(** ** The statements of a call, in order *)

Implicit Types (f : Frame) (p : Point).

Lemma run_call_next fuel f s f1 s1 :
  (forall b, pc f <> Returned b) ->
  step f s = Done (f1, s1) ->
  run_call (S fuel) f s = do rest <- run_call fuel f1 s1; Done ((f, s) :: rest).
Proof.
  intros Hp Hs. cbn [run_call]. rewrite Hs. cbn [bind fst snd].
  destruct (pc f); try reflexivity. now destruct (Hp b).
Qed.

Lemma run_call_fault fuel f s e :
  (forall b, pc f <> Returned b) ->
  step f s = Undefined e ->
  run_call (S fuel) f s = Undefined e.
Proof.
  intros Hp Hs. cbn [run_call]. rewrite Hs. cbn [bind].
  destruct (pc f); try reflexivity. now destruct (Hp b).
Qed.

Lemma run_call_returned fuel f s b :
  pc f = Returned b -> run_call fuel f s = Done [(f, s)].
Proof. intros Hp. destruct fuel; cbn [run_call]; [|rewrite Hp]; reflexivity. Qed.

(** The frames of a call that flushes, from line 177 to the return. *)
Lemma run_call_flush i w s w1 T net tnet :
  append_pending i w = Done w1 ->
  flush_due (terminal i) w1 = true ->
  flush_loop (config w1) (terminal i) (Z.of_nat (length (pending w1))) 0
    (pending w1) (network w1) (targetNetwork (count_step s))
    (mat_zeros (n_rows (Parameters (learningNetwork (count_step s))))
               (n_cols (Parameters (learningNetwork (count_step s)))))
  = Done (T, net, tnet) ->
  let G := mat_transform (clamp (GradientLimit (config w1))) T in
  let s1 := count_step s in
  let sg := set_targetNetwork tnet s1 in
  let wg := set_network net w1 in
  let u := Update (updatePolicy wg) (Parameters (learningNetwork sg))
             (StepSize (config wg)) G in
  let wu := set_updatePolicy u.2 wg in
  let su := set_learningNetwork (set_Parameters (learningNetwork sg) u.1) sg in
  let wr := set_network (learningNetwork su) wu in
  let wc := set_pendingIndex 0 wr in
  let fr p g x := {| pc := p; locals := i; totalGradients := g; self := x |} in
  let Z0 := mat_zeros 0 0 in
  flush (terminal i) w1 s1 = Done (wc, su) /\
  run_call 10 (enter i w) s
  = do s3 <- sync_target wc su;
    let r := finish i wc (anneal s3) in
    Done [ (fr AtCount Z0 w, s); (fr AtStore Z0 w, s1);
           (fr AtFlushTest Z0 w1, s1); (fr AtGradients Z0 w1, s1);
           (fr AtUpdate G wg, sg); (fr AtRefresh G wu, su);
           (fr AtClear G wr, su); (fr AtSync G wc, su);
           (fr AtAnneal G wc, s3); (fr AtEnd G wc, anneal s3);
           (fr (Returned r.1.1) G r.1.2, r.2) ].
Proof.
  intros Ha Hdue Hloop G s1 sg wg u wu su wr wc fr Z0. subst s1. split.
  - unfold flush. cbv zeta. rewrite Hloop. reflexivity.
  - unfold enter.
    rewrite (run_call_next _ _ _ (fr AtStore Z0 w) (count_step s));
      [|discriminate|reflexivity].
    rewrite (run_call_next _ _ _ (fr AtFlushTest Z0 w1) (count_step s));
      [|discriminate|unfold step, fr; frames; rewrite Ha; reflexivity].
    rewrite (run_call_next _ _ _ (fr AtGradients Z0 w1) (count_step s));
      [|discriminate|unfold step, fr; frames; rewrite Hdue; reflexivity].
    rewrite (run_call_next _ _ _ (fr AtUpdate G wg) sg);
      [|discriminate|unfold step, fr; frames; rewrite Hloop; reflexivity].
    rewrite (run_call_next _ _ _ (fr AtRefresh G wu) su);
      [|discriminate|reflexivity].
    rewrite (run_call_next _ _ _ (fr AtClear G wr) su);
      [|discriminate|reflexivity].
    rewrite (run_call_next _ _ _ (fr AtSync G wc) su);
      [|discriminate|reflexivity].
    destruct (sync_target wc su) as [s3|e] eqn:Hy; cbn [bind].
    2:{ rewrite (run_call_fault _ _ _ e); [reflexivity|discriminate|].
        unfold step, fr; frames. rewrite Hy. reflexivity. }
    rewrite (run_call_next _ _ _ (fr AtAnneal G wc) s3);
      [|discriminate|unfold step, fr; frames; rewrite Hy; reflexivity].
    rewrite (run_call_next _ _ _ (fr AtEnd G wc) (anneal s3));
      [|discriminate|reflexivity].
    rewrite (run_call_next _ _ _
               (fr (Returned (finish i wc (anneal s3)).1.1) G
                   (finish i wc (anneal s3)).1.2)
               (finish i wc (anneal s3)).2);
      [|discriminate|reflexivity].
    reflexivity.
Qed.

(** The frames of a call that does not flush. *)
Lemma run_call_no_flush i w s w1 :
  append_pending i w = Done w1 ->
  flush_due (terminal i) w1 = false ->
  let fr p x := {| pc := p; locals := i; totalGradients := mat_zeros 0 0;
                   self := x |} in
  run_call 10 (enter i w) s
  = do s3 <- sync_target w1 (count_step s);
    let r := finish i w1 (anneal s3) in
    Done [ (fr AtCount w, s); (fr AtStore w, count_step s);
           (fr AtFlushTest w1, count_step s); (fr AtSync w1, count_step s);
           (fr AtAnneal w1, s3); (fr AtEnd w1, anneal s3);
           (fr (Returned r.1.1) r.1.2, r.2) ].
Proof.
  intros Ha Hdue fr. unfold enter.
  rewrite (run_call_next _ _ _ (fr AtStore w) (count_step s));
    [|discriminate|reflexivity].
  rewrite (run_call_next _ _ _ (fr AtFlushTest w1) (count_step s));
    [|discriminate|unfold step, fr; frames; rewrite Ha; reflexivity].
  rewrite (run_call_next _ _ _ (fr AtSync w1) (count_step s));
    [|discriminate|unfold step, fr; frames; rewrite Hdue; reflexivity].
  destruct (sync_target w1 (count_step s)) as [s3|e] eqn:Hy; cbn [bind].
  2:{ rewrite (run_call_fault _ _ _ e); [reflexivity|discriminate|].
      unfold step, fr; frames. rewrite Hy. reflexivity. }
  rewrite (run_call_next _ _ _ (fr AtAnneal w1) s3);
    [|discriminate|unfold step, fr; frames; rewrite Hy; reflexivity].
  rewrite (run_call_next _ _ _ (fr AtEnd w1) (anneal s3));
    [|discriminate|reflexivity].
  rewrite (run_call_next _ _ _
             (fr (Returned (finish i w1 (anneal s3)).1.1)
                 (finish i w1 (anneal s3)).1.2)
             (finish i w1 (anneal s3)).2);
    [|discriminate|reflexivity].
  reflexivity.
Qed.

(** The machine computes [Step] in stochastic mode: an uninterrupted run of
    the statements returns what [Step_stochastic] returns, and stops where it
    stops. *)
Lemma run_call_Step_stochastic i w s :
  match Step_stochastic i w s with
  | Done (b, w', s') =>
      exists cs f,
        run_call 10 (enter i w) s = Done cs /\
        last cs = Some (f, s') /\ pc f = Returned b /\ self f = w'
  | Undefined e => run_call 10 (enter i w) s = Undefined e
  end.
Proof.
  unfold Step_stochastic. cbv zeta.
  destruct (append_pending i w) as [w1|e] eqn:Ha; cbn [bind].
  2:{ unfold enter.
      rewrite (run_call_next _ _ _
                 {| pc := AtStore; locals := i; totalGradients := mat_zeros 0 0;
                    self := w |} (count_step s)); [|discriminate|reflexivity].
      rewrite (run_call_fault _ _ _ e); [reflexivity|discriminate|].
      unfold step; frames. rewrite Ha. reflexivity. }
  destruct (flush_due (terminal i) w1) eqn:Hdue.
  - destruct (flush_loop (config w1) (terminal i) (Z.of_nat (length (pending w1)))
                0 (pending w1) (network w1) (targetNetwork (count_step s))
                (mat_zeros (n_rows (Parameters (learningNetwork (count_step s))))
                   (n_cols (Parameters (learningNetwork (count_step s))))))
      as [[[T net] tnet]|e] eqn:Hloop.
    2:{ unfold flush. cbv zeta. rewrite Hloop. cbn [bind]. unfold enter.
        rewrite (run_call_next _ _ _
                   {| pc := AtStore; locals := i; totalGradients := mat_zeros 0 0;
                      self := w |} (count_step s)); [|discriminate|reflexivity].
        rewrite (run_call_next _ _ _
                   {| pc := AtFlushTest; locals := i;
                      totalGradients := mat_zeros 0 0; self := w1 |} (count_step s));
          [|discriminate|unfold step; frames; rewrite Ha; reflexivity].
        rewrite (run_call_next _ _ _
                   {| pc := AtGradients; locals := i;
                      totalGradients := mat_zeros 0 0; self := w1 |} (count_step s));
          [|discriminate|unfold step; frames; rewrite Hdue; reflexivity].
        rewrite (run_call_fault _ _ _ e); [reflexivity|discriminate|].
        unfold step; frames. rewrite Hloop. reflexivity. }
    destruct (run_call_flush i w s w1 T net tnet Ha Hdue Hloop) as [Hf Hrun].
    cbv zeta in Hf, Hrun. rewrite Hf, Hrun. cbn [bind fst snd].
    destruct (sync_target _ _) as [s3|e] eqn:Hy; cbn [bind]; [|reflexivity].
    destruct (finish _ _ _) as [[b w'] s'] eqn:Hfin.
    eexists _, _. split; [reflexivity|]. repeat split.
  - rewrite (run_call_no_flush i w s w1 Ha Hdue). cbn [bind fst snd].
    destruct (sync_target _ _) as [s3|e] eqn:Hy; cbn [bind]; [|reflexivity].
    destruct (finish _ _ _) as [[b w'] s'] eqn:Hfin.
    eexists _, _. split; [reflexivity|]. repeat split.
Qed.

(** C10. A call in stochastic mode that both flushes and syncs executes its
    statements in this order: the optimizer's update, the refresh of the local
    network, the copy into the target network, [Anneal], the end of the call.
    Before each statement the frame and the shared objects are these: when the
    refresh is about to run the learning network holds the update; when the
    copy is about to run the local network is refreshed, the target network
    is still as the loop left it, the policy is not annealed and the episode
    not reset; when [Anneal] is about to run the target network holds the
    updated parameters and the policy is still the one the call was given;
    when the end of the call is about to run the policy is annealed and the
    worker is the one the copy saw; the reset, if any, is the last thing the
    call does. *)
Theorem flush_then_sync_then_anneal w s b w' s' :
  Step w s = Done (b, w', s') -> deterministic w = false ->
  exists i w1 s1,
    before_flush w s = Done (i, w1, s1) /\
    (flush_due (terminal i) w1 = true -> sync_due w1 s1 = true ->
     exists T net tnet early c_refresh c_clear c_sync c_anneal c_end c_ret,
       flush_loop (config w1) (terminal i) (Z.of_nat (length (pending w1))) 0
         (pending w1) (network w1) (targetNetwork s1)
         (mat_zeros (n_rows (Parameters (learningNetwork s)))
                    (n_cols (Parameters (learningNetwork s))))
       = Done (T, net, tnet) /\
       let updated :=
         set_Parameters (learningNetwork s)
           (Update (updatePolicy w) (Parameters (learningNetwork s))
              (StepSize (config w))
              (mat_transform (clamp (GradientLimit (config w))) T)).1 in
       Step_points w s
       = Done (early ++ [c_refresh; c_clear; c_sync; c_anneal; c_end; c_ret]) /\
       (fun c => pc c.1) <$> early
       = [AtCount; AtStore; AtFlushTest; AtGradients; AtUpdate] /\
       Forall (fun c => learningNetwork c.2 = learningNetwork s) early /\
       (pc c_refresh.1 = AtRefresh /\
        learningNetwork c_refresh.2 = updated) /\
       (pc c_clear.1 = AtClear /\
        learningNetwork c_clear.2 = updated /\
        network (self c_clear.1) = updated) /\
       (pc c_sync.1 = AtSync /\
        flush (terminal i) w1 s1 = Done (self c_sync.1, c_sync.2) /\
        learningNetwork c_sync.2 = updated /\
        network (self c_sync.1) = updated /\
        targetNetwork c_sync.2 = tnet /\
        policy c_sync.2 = policy s /\
        steps (self c_sync.1) = wrap (steps w + 1)) /\
       (pc c_anneal.1 = AtAnneal /\
        sync_target (self c_sync.1) c_sync.2 = Done c_anneal.2 /\
        targetNetwork c_anneal.2 = updated /\
        learningNetwork c_anneal.2 = updated /\
        policy c_anneal.2 = policy s /\
        self c_anneal.1 = self c_sync.1) /\
       (pc c_end.1 = AtEnd /\
        c_end.2 = anneal c_anneal.2 /\
        policy c_end.2 = Anneal (policy s) /\
        targetNetwork c_end.2 = updated /\
        self c_end.1 = self c_sync.1) /\
       (pc c_ret.1 = Returned b /\
        finish i (self c_end.1) c_end.2 = (b, w', s') /\
        self c_ret.1 = w' /\ c_ret.2 = s' /\
        (b = true -> w' = Reset (self c_end.1))) /\
       targetNetwork s' = updated /\
       learningNetwork s' = updated /\
       network w' = updated /\
       policy s' = Anneal (policy s)).
Proof.
  intros HS Hdet.
  destruct (Step_flush_sync_phases w s b w' s' HS Hdet) as (i & w1 & s1 & Hbf & Hboth).
  exists i, w1, s1. split; [exact Hbf|]. intros Hdue Hsync.
  destruct (Hboth Hdue Hsync)
    as (T & net & tnet & w2 & s2 & s3 & Hloop & Hf & HL & HN & HT & Hy & HT3 & HL3
        & HP3 & Hst & Hfin & Ht' & Hl' & Hn' & Hp' & Hres).
  cbv zeta in Hf, HL, HN, HT, Hy, HT3, HL3, HP3, Hst, Hfin, Ht', Hl', Hn', Hp', Hres.
  unfold before_flush in Hbf. cbv zeta in Hbf.
  apply bind_Done in Hbf as (w1' & Ha & Hbf).
  assert (i = (interact w s).1.1 /\ w1' = w1 /\ s1 = count_step (interact w s).2)
    as (Hi & -> & Hs1) by (repeat split; congruence).
  rewrite <- Hi in Ha.
  destruct (interact_shared_frame w s) as (Hli & _).
  assert (learningNetwork s1 = learningNetwork s) as Hl1
    by (rewrite Hs1; fields; exact Hli).
  pose proof Hloop as Hloop'. rewrite <- Hl1, Hs1 in Hloop'.
  destruct (run_call_flush i _ _ w1 T net tnet Ha Hdue Hloop') as [Hf' Hrun].
  cbv zeta in Hf', Hrun. rewrite <- Hs1 in Hf', Hrun.
  rewrite Hf in Hf'.
  match type of Hf' with
  | Done (w2, s2) = Done (?a, ?b) =>
      assert (a = w2 /\ b = s2) as [Hw2 Hs2] by (split; congruence);
      rewrite Hw2, Hs2 in Hrun
  end.
  rewrite Hy in Hrun. cbn [bind] in Hrun. rewrite Hfin in Hrun. cbn [fst snd] in Hrun.
  eexists T, net, tnet, [_; _; _; _; _], _, _, _, _, _, _.
  split; [exact Hloop|]. cbv zeta.
  split; [unfold Step_points; cbv zeta; rewrite <- Hi; exact Hrun|].
  split; [reflexivity|]. cbn [fst snd pc self].
  split.
  { repeat constructor; cbn [fst snd]; fields; rewrite ?Hs1; fields;
      first [exact Hli | reflexivity]. }
  clear Hrun Hw2 Hs2 Hboth Hloop' Hf'.
  assert (policy s2 = policy s) as HP2.
  { destruct (sync_target_frame _ _ _ Hy) as (_ & _ & Hp & _). congruence. }
  split; [split; [reflexivity | exact HL]|].
  split; [split; [reflexivity | split; [exact HL | fields; exact HL]]|].
  split; [repeat (split; [first [reflexivity | assumption]|]); assumption|].
  split; [repeat (split; [first [reflexivity | assumption]|]); reflexivity|].
  split.
  { split; [reflexivity|]. split; [reflexivity|]. unfold anneal. fields.
    rewrite HP3, HT3. auto. }
  split; [repeat (split; [first [reflexivity | assumption]|]); assumption|].
  auto.
Qed.

(** ** The test of the counter *)

(** What one statement does to the counter, to the worker's configuration
    and to the point of the call. *)
Lemma step_counter f s f' s' :
  step f s = Done (f', s') ->
  totalSteps s'
  = (match pc f with AtCount => wrap (totalSteps s + 1) | _ => totalSteps s end) /\
  config (self f') = config (self f) /\
  (before_sync (pc f) = true -> pc f <> AtSync -> before_sync (pc f') = true) /\
  pc f' <> AtCount.
Proof.
  unfold step. cbv zeta. destruct (pc f) eqn:Hp.
  - intros [= <- <-]. frames. repeat split; discriminate.
  - intros Hs. apply bind_Done in Hs as (w1 & Ha & [= <- <-]).
    apply append_pending_Done in Ha as [_ ->]. frames. repeat split; discriminate.
  - intros [= <- <-]. frames. repeat split; now destruct (flush_due _ _).
  - intros Hs. apply bind_Done in Hs as ([[T net] tnet] & _ & [= <- <-]).
    frames. repeat split; discriminate.
  - intros [= <- <-]. frames. repeat split; discriminate.
  - intros [= <- <-]. frames. repeat split; discriminate.
  - intros [= <- <-]. frames. repeat split; discriminate.
  - intros Hs. apply bind_Done in Hs as (s3 & Hy & [= <- <-]).
    apply sync_target_frame in Hy as (_ & -> & _). frames.
    repeat split; congruence.
  - intros [= <- <-]. frames. repeat split; discriminate.
  - destruct (finish (locals f) (self f) s) as [[b w'] s''] eqn:Hfin.
    intros [= <- <-]. frames.
    apply finish_result in Hfin as (_ & -> & _ & _ & _ & _ & _ & _ & _ & _ & -> & _).
    repeat split; discriminate.
  - intros [= <- <-]. rewrite Hp. repeat split; discriminate.
Qed.

(** The statement at lines 245-250 copies the learning network into the
    target network exactly when the counter, as it stands when the statement
    runs, is a multiple of the interval. *)
Lemma step_AtSync f s f' s' :
  step f s = Done (f', s') -> pc f = AtSync ->
  totalSteps s' = totalSteps s /\
  learningNetwork s' = learningNetwork s /\
  targetNetwork s'
  = (if totalSteps s mod TargetNetworkSyncInterval (config (self f)) =? 0
     then learningNetwork s else targetNetwork s).
Proof.
  unfold step. cbv zeta. intros Hs Hp. rewrite Hp in Hs.
  apply bind_Done in Hs as (s3 & Hy & [= <- <-]).
  apply sync_target_Done in Hy as [_ ->]. unfold sync_due.
  destruct (_ =? 0); auto.
Qed.

(** No other statement writes the target network, the loop apart: its
    [Predict] calls are on the target network object. *)
Lemma step_target_frame f s f' s' :
  step f s = Done (f', s') -> pc f <> AtSync -> pc f <> AtGradients ->
  targetNetwork s' = targetNetwork s.
Proof.
  unfold step. cbv zeta. intros Hs Hy Hg.
  destruct (pc f) eqn:Hp; try congruence;
    try (apply bind_Done in Hs as (w1 & _ & [= <- <-]); reflexivity);
    try (injection Hs as <- <-; reflexivity).
  destruct (finish (locals f) (self f) s) as [[b w'] s''] eqn:Hfin.
  injection Hs as <- <-. cbn [snd].
  now apply finish_result in Hfin as (_ & _ & _ & _ & _ & _ & _ & _ & _ & -> & _).
Qed.

(** A call during which the other workers leave the counter alone reaches its
    test with the counter as its own increment left it. *)
Lemma call_steps_reach_sync (R : Shared -> Shared -> Prop) cfg n f s f' s' b :
  (forall x y, R x y -> totalSteps y = totalSteps x) ->
  call_steps R f s f' s' -> pc f' = Returned b ->
  before_sync (pc f) = true ->
  config (self f) = cfg ->
  totalSteps s = (match pc f with AtCount => n | _ => wrap (n + 1) end) ->
  exists f2 s2 f3 s3,
    call_steps R f s f2 s2 /\ pc f2 = AtSync /\
    step f2 s2 = Done (f3, s3) /\ call_steps R f3 s3 f' s' /\
    totalSteps s2 = wrap (n + 1) /\
    learningNetwork s3 = learningNetwork s2 /\
    targetNetwork s3
    = (if wrap (n + 1) mod TargetNetworkSyncInterval cfg =? 0
       then learningNetwork s2 else targetNetwork s2).
Proof.
  intros HR Hrun Hret. induction Hrun as [f s|f s f1 s1 f' s' Hs Hrun IH|f s s1 f' s' Hr Hrun IH];
    intros Hb Hc Hn.
  - rewrite Hret in Hb. discriminate.
  - destruct (step_counter _ _ _ _ Hs) as (Hn1 & Hc1 & Hb1 & Hnc).
    assert (totalSteps s1 = wrap (n + 1)) as Hn1'
      by (rewrite Hn1, Hn; destruct (pc f); reflexivity).
    assert (totalSteps s1
            = match pc f1 with AtCount => n | _ => wrap (n + 1) end) as Hn2
      by (destruct (pc f1); [contradiction | exact Hn1' ..]).
    destruct (pc f) eqn:Hp; try discriminate Hb;
      try (destruct (IH Hret (Hb1 Hb ltac:(discriminate)) ltac:(congruence) Hn2)
             as (f2 & s2 & f3 & s3 & H1 & H2 & H3 & H4 & H5 & H6 & H7);
           exists f2, s2, f3, s3; split; [eapply call_own; eassumption|]; auto 10).
    destruct (step_AtSync _ _ _ _ Hs Hp) as (H5 & H6 & H7).
    exists f, s, f1, s1. split; [apply call_here|]. split; [exact Hp|].
    split; [exact Hs|]. split; [exact Hrun|]. rewrite Hc, Hn in H7. auto.
  - destruct (IH Hret Hb Hc ltac:(rewrite (HR _ _ Hr); exact Hn))
      as (f2 & s2 & f3 & s3 & H1 & H2 & H3 & H4 & H5 & H6 & H7).
    exists f2, s2, f3, s3. split; [eapply call_others; eassumption|]. auto 10.
Qed.

(** An uninterrupted run of the statements is a call among others that do
    nothing. *)
Lemma run_call_call_steps (R : Shared -> Shared -> Prop) fuel f s cs :
  run_call fuel f s = Done cs ->
  exists f' s', last cs = Some (f', s') /\ call_steps R f s f' s'.
Proof.
  revert f s cs. induction fuel as [|fuel IH]; intros f s cs; cbn [run_call].
  - intros [= <-]. exists f, s. split; [reflexivity | apply call_here].
  - destruct (pc f) eqn:Hp;
      try (intros Hrun; apply bind_Done in Hrun as ([f1 s1] & Hs & Hrun);
           apply bind_Done in Hrun as (rest & Hrest & [= <-]);
           cbn [fst snd] in Hrest;
           destruct (IH _ _ _ Hrest) as (f' & s' & Hl & Hc);
           exists f', s'; split; [|eapply call_own; eassumption];
           destruct rest; [discriminate | exact Hl]).
    intros [= <-]. exists f, s. split; [reflexivity | apply call_here].
Qed.

(** C8, as amended.  The copy of the learning network into the target network
    is made by the statement at lines 245-250 and by no other, exactly when
    the counter is a multiple of [TargetNetworkSyncInterval] as that statement
    reads it.  In a call during which the other workers may do anything but
    increment the counter, the value read is the counter after the call's own
    increment.  In a call that nothing interrupts the target network ends
    equal to the learning network if the counter after the call's increment
    is a multiple of the interval, and as the flush left it if not; and when
    the calls of a run follow one another, all workers use one interval [I]
    and the counter starts at 0, the target network equals the learning
    network after exactly [I] calls in stochastic mode. *)
Theorem target_network_synced_at_multiples :
  (forall f s f' s',
      step f s = Done (f', s') ->
      (pc f = AtSync ->
       totalSteps s' = totalSteps s /\
       learningNetwork s' = learningNetwork s /\
       targetNetwork s'
       = (if totalSteps s mod TargetNetworkSyncInterval (config (self f)) =? 0
          then learningNetwork s else targetNetwork s)) /\
      (pc f <> AtSync -> pc f <> AtGradients ->
       targetNetwork s' = targetNetwork s)) /\
  (forall (R : Shared -> Shared -> Prop) i w s f' s' b,
      (forall x y, R x y -> totalSteps y = totalSteps x) ->
      call_steps R (enter i w) s f' s' -> pc f' = Returned b ->
      exists f2 s2 f3 s3,
        call_steps R (enter i w) s f2 s2 /\ pc f2 = AtSync /\
        step f2 s2 = Done (f3, s3) /\ call_steps R f3 s3 f' s' /\
        totalSteps s2 = wrap (totalSteps s + 1) /\
        learningNetwork s3 = learningNetwork s2 /\
        targetNetwork s3
        = (if wrap (totalSteps s + 1) mod TargetNetworkSyncInterval (config w) =? 0
           then learningNetwork s2 else targetNetwork s2)) /\
  (forall w s b w' s',
      Step w s = Done (b, w', s') -> deterministic w = false ->
      exists i w1 s1 w2 s2,
        before_flush w s = Done (i, w1, s1) /\
        (if flush_due (terminal i) w1 then flush (terminal i) w1 s1
         else Done (w1, s1)) = Done (w2, s2) /\
        learningNetwork s' = learningNetwork s2 /\
        totalSteps s' = wrap (totalSteps s + 1) /\
        targetNetwork s'
        = if totalSteps s' mod TargetNetworkSyncInterval (config w) =? 0
          then learningNetwork s' else targetNetwork s2) /\
  (forall I schedule sys sys',
      0 < I < size_t_modulus ->
      Forall (same_interval I) (workers sys) ->
      totalSteps (shared sys) = 0 ->
      Z.of_nat (stochastic_calls (workers sys) schedule) = I ->
      sys_run schedule sys = Done sys' ->
      totalSteps (shared sys') = I /\
      targetNetwork (shared sys') = learningNetwork (shared sys')).
Proof.
  split; [|split; [|split]].
  - intros f s f' s' Hs. split.
    + exact (step_AtSync f s f' s' Hs).
    + exact (step_target_frame f s f' s' Hs).
  - intros R i w s f' s' b HR Hrun Hret.
    apply (call_steps_reach_sync R (config w) (totalSteps s) _ _ _ _ b HR Hrun Hret);
      reflexivity.
  - exact Step_sync.
  - exact sys_run_sync_at_interval.
Qed.

(** ** The gradient a flush applies *)

(** The clamp by cases, as [std::max] and [std::min] compute it: for any
    limit and any value, NaN included. *)
Lemma clamp_cases (limit x : D) :
  clamp limit x
  = if d_ltb x (d_opp limit)
    then (if d_ltb limit (d_opp limit) then limit else d_opp limit)
    else if d_ltb limit x then limit else x.
Proof.
  unfold clamp, std_min, std_max. now destruct (d_ltb x (d_opp limit)).
Qed.

(** X20. The gradient a flush hands to the optimizer: the accumulator starts
    at zero with the shape of the parameters, the gradient of every element of
    [pending] is added to it, index 0 first, and each element [x] of the sum
    is then replaced once by [-limit] when [x < -limit], by [limit] when
    [limit < x], and kept as it is otherwise ([limit] itself when
    [limit < -limit]).  Nothing is clamped before the sum is complete. *)
Theorem flush_gradient_is_saturated_sum term w s w' s' :
  flush term w s = Done (w', s') ->
  let r := n_rows (Parameters (learningNetwork s)) in
  let c := n_cols (Parameters (learningNetwork s)) in
  let limit := GradientLimit (config w) in
  let saturate (x : D) :=
    if d_ltb x (d_opp limit)
    then (if d_ltb limit (d_opp limit) then limit else d_opp limit)
    else if d_ltb limit x then limit else x in
  exists vs T,
    code_flush_visits term w s = Done vs /\
    v_index <$> vs = seqZ 0 (Z.of_nat (length (pending w))) /\
    mat_sum (mat_zeros r c) (v_gradient <$> vs) = Done T /\
    n_rows T = r /\ n_cols T = c /\
    learningNetwork s'
    = set_Parameters (learningNetwork s)
        (Update (updatePolicy w) (Parameters (learningNetwork s))
           (StepSize (config w)) (Mat r c (saturate <$> mem T))).1 /\
    (Forall mat_wf (v_gradient <$> vs) ->
     forall j, (j < r * c)%nat ->
       mem T !! j
       = Some (fold_left d_add
                 ((fun g => nth j (mem g) d_zero) <$> (v_gradient <$> vs))
                 d_zero)).
Proof.
  intros Hf r c limit saturate.
  apply flush_Done in Hf as (T & net & tnet & Hloop & Hs & Hw).
  apply flush_loop_visits in Hloop as (vs & Hvs & Hlen & Hsum).
  destruct (mat_sum_shape _ _ _ Hsum) as (Hr & Hc & _).
  cbn [mat_zeros n_rows n_cols] in Hr, Hc.
  exists vs, T. split; [exact Hvs|].
  split; [now apply flush_visits_indices in Hvs|].
  split; [exact Hsum|]. split; [exact Hr|]. split; [exact Hc|]. split.
  - rewrite Hs. cbv zeta. fields. do 3 f_equal.
    unfold mat_transform. rewrite Hr, Hc. f_equal.
    apply list_fmap_ext. intros _ x _. apply clamp_cases.
  - intros Hwf j Hj.
    apply (mat_sum_lookup _ _ _ j d_zero Hsum); [|exact Hwf|].
    + unfold mat_wf, mat_zeros. cbn [mem n_rows n_cols]. apply length_replicate.
    + unfold mat_zeros. cbn [mem]. apply lookup_replicate. auto.
Qed.

(** ** Workers running at once *)

Lemma run_call_nonempty fuel f s cs : run_call fuel f s = Done cs -> cs <> [].
Proof.
  destruct fuel; cbn [run_call].
  - intros [= <-]. discriminate.
  - destruct (pc f); try (intros [= <-]; discriminate);
      (intros H; apply bind_Done in H as (fs & _ & H);
       apply bind_Done in H as (rest & _ & [= <-]); discriminate).
Qed.

(** The statements of a call run one after the other, with no statement of
    another worker in between, are that call. *)
Lemma threads_run_call k fuel f s cs (ths : list Thread) f' s' b :
  run_call fuel f s = Done cs ->
  ths !! k = Some (Running f) ->
  (forall b', pc f <> Returned b') ->
  last cs = Some (f', s') -> pc f' = Returned b ->
  threads_run (replicate (length cs - 1) k) {| threads := ths; world := s |}
  = Done {| threads := <[k := Idle (self f')]> ths; world := s' |}.
Proof.
  revert f s cs ths. induction fuel as [|fuel IH]; intros f s cs ths Hrun Hk Hp Hl Hret.
  - injection Hrun as <-. injection Hl as <- <-. now destruct (Hp b).
  - destruct (step f s) as [[f1 s1]|e] eqn:Hs.
    2:{ rewrite (run_call_fault _ _ _ _ Hp Hs) in Hrun. discriminate. }
    rewrite (run_call_next _ _ _ _ _ Hp Hs) in Hrun.
    apply bind_Done in Hrun as (rest & Hrest & [= <-]).
    pose proof (run_call_nonempty _ _ _ _ Hrest) as Hne.
    assert (last rest = Some (f', s')) as Hl'
      by (destruct rest; [contradiction | exact Hl]).
    replace (length ((f, s) :: rest) - 1)%nat with (S (length rest - 1))
      by (destruct rest; [contradiction | simpl; lia]).
    cbn [replicate threads_run]. unfold thread_step. cbn [threads world].
    rewrite Hk, Hs. cbn [bind fst snd]. unfold settle.
    assert (forall th, <[k := th]> ths !! k = Some th) as Hk1
      by (intros th; apply list_lookup_insert_eq; now apply lookup_lt_Some in Hk).
    destruct (pc f1) eqn:E1;
      try (rewrite (IH f1 s1 rest _ Hrest (Hk1 _)
                      ltac:(intros b'; rewrite E1; discriminate) Hl' Hret),
             list_insert_insert_eq; reflexivity).
    rewrite (run_call_returned _ _ _ _ E1) in Hrest. injection Hrest as <-.
    injection Hl' as <- <-. reflexivity.
Qed.

(** A worker between two calls whose statements run without a statement of
    another worker in between has called [Step]. *)
Lemma threads_run_Step k (t : Threads) w b w' s' :
  threads t !! k = Some (Idle w) ->
  Step w (world t) = Done (b, w', s') ->
  exists n,
    threads_run (replicate n k) t
    = Done {| threads := <[k := Idle w']> (threads t); world := s' |}.
Proof.
  intros Hk HS. destruct t as [ths s]. cbn [threads world] in *.
  unfold Step in HS. cbv zeta in HS.
  destruct (deterministic (interact w s).1.2) eqn:Hd.
  - exists 1%nat. cbn [replicate threads_run]. unfold thread_step. cbn [threads world].
    rewrite Hk, Hd.
    destruct (Step_deterministic _ _ _) as [[b0 w0] s0] eqn:E.
    injection HS as _ <- <-. reflexivity.
  - pose proof (run_call_Step_stochastic (interact w s).1.1 (interact w s).1.2
                  (interact w s).2) as Hrun.
    rewrite HS in Hrun. destruct Hrun as (cs & f & Hrun & Hl & Hret & <-).
    exists (S (length cs - 1)). cbn [replicate threads_run].
    unfold thread_step. cbn [threads world]. rewrite Hk, Hd. cbn [bind].
    rewrite (threads_run_call k _ _ _ _ _ f s' b Hrun).
    + now rewrite list_insert_insert_eq.
    + apply list_lookup_insert_eq. now apply lookup_lt_Some in Hk.
    + intros b'. discriminate.
    + exact Hl.
    + exact Hret.
Qed.

End Properties.

(** * The properties on the corridor *)

Import Corridor.

(** IEEE [<] is irreflexive (a NaN is below nothing). *)
Lemma float_ltb_irrefl (x : float) : PrimFloat.ltb x x = false.
Proof.
  rewrite ltb_spec. unfold SFltb, SFcompare.
  destruct (Prim2SF x) as [sg|sg| |sg m e]; try reflexivity.
  - now destruct sg.
  - destruct sg; rewrite Z.compare_refl, Pos.compare_cont_refl; reflexivity.
Qed.

(** The corridor's collaborators are as [Step] needs them, and its workers
    start in a state from which every call is defined. *)
Lemma corridor_collaborators_ok :
  @collaborators_ok float float float Table float unit _ _ _ 2 1.
Proof.
  constructor; try (intros; split; reflexivity); try reflexivity.
  intros p av det g. cbn. unfold greedy.
  destruct av as [|a [|b [|x av]]]; try (cbn; lia).
  destruct (PrimFloat.ltb a b); cbn; lia.
Qed.

Lemma corridor_Step_defined :
  worker_ok w0 /\
  exists b w' s', Step w0 s0 = Done (b, w', s') /\ worker_ok w'.
Proof.
  assert (worker_ok w0) as Hok.
  { split; [vm_compute; repeat split; congruence|].
    split; [vm_compute; lia|].
    split; [repeat constructor | vm_compute; congruence]. }
  split; [exact Hok|].
  exact (Step_defined 2 1 corridor_collaborators_ok w0 s0 Hok).
Defined.

(** ** A terminal step on a buffer that is not full

    A new worker four cells before the goal, [UpdateInterval = 3].  Its first
    three calls fill the buffer; the third flushes it and leaves
    [pendingIndex = 0].  The fourth call reaches the goal: the step is
    terminal, its transition goes to [pending[0]], [pendingIndex] becomes 1
    and the flush runs on a buffer whose two other elements are the second
    and third transitions, already applied by the earlier flush. *)

Lemma four_step_episode :
  sys_run [0; 0; 0]%nat start = Done after_three /\
  workers after_three = [w3] /\ shared after_three = s3 /\
  pendingIndex w3 = 0 /\
  before_flush w3 s3 = Done ((interact w3 s3).1.1, w4, s4) /\
  terminal (interact w3 s3).1.1 = true /\
  flush_due true w4 = true /\
  pendingIndex w4 = 1 /\
  pending w4
  = [ {| tr_state := 3%float; tr_action := 0%nat; tr_reward := 1%float;
         tr_nextState := 4%float; tr_nextAction := 0%nat |};
      {| tr_state := 1%float; tr_action := 0%nat; tr_reward := 1%float;
         tr_nextState := 2%float; tr_nextAction := 0%nat |};
      {| tr_state := 2%float; tr_action := 0%nat; tr_reward := 1%float;
         tr_nextState := 3%float; tr_nextAction := 0%nat |} ].
Proof. repeat split; vm_compute; reflexivity. Qed.

(** C1 at the fourth call: one transition is buffered ([pendingIndex = 1]),
    yet the flush visits the three elements of [pending], the two stale ones
    included, and the learning network moves by the sum of the three
    gradients.  The flush over the one buffered transition visits index 0
    only and moves the learning network by one gradient. *)
Theorem terminal_flush_visits_stale_transitions :
  let a := (learningNetwork s3).1 in
  (exists vs,
      code_flush_visits true w4 s4 = Done vs /\
      v_index <$> vs = [0; 1; 2] /\
      v_gradient <$> vs
      = [Mat 2 1 [(a - (1 + 0.9 * 2))%float; 0%float];
         Mat 2 1 [(a - (1 + 0.9 * 2))%float; 0%float];
         Mat 2 1 [(a - (1 + 0.9 * 0))%float; 0%float]]) /\
  (exists vs,
      spec_flush_visits true w4 s4 = Done vs /\
      v_index <$> vs = [0] /\
      v_gradient <$> vs = [Mat 2 1 [(a - (1 + 0.9 * 0))%float; 0%float]]) /\
  (exists w' s',
      Step w3 s3 = Done (true, w', s') /\
      learningNetwork s'
      = ((a - 0.5 * ((a - (1 + 0.9 * 2)) + (a - (1 + 0.9 * 2))
                     + (a - (1 + 0.9 * 0))))%float,
         0%float)) /\
  (a - 0.5 * ((a - (1 + 0.9 * 2)) + (a - (1 + 0.9 * 2)) + (a - (1 + 0.9 * 0))))%float
  <> (a - 0.5 * (a - (1 + 0.9 * 0)))%float.
Proof.
  cbv zeta. split; [|split; [|split]].
  - eexists. split; [vm_compute; reflexivity|]. split; vm_compute; reflexivity.
  - eexists. split; [vm_compute; reflexivity|]. split; vm_compute; reflexivity.
  - eexists _, _. split; vm_compute; reflexivity.
  - intros H. apply (f_equal (PrimFloat.ltb 2)) in H. vm_compute in H. discriminate.
Qed.

(** C2 at the fourth call: the step is terminal and the last buffered
    transition is the one at index [pendingIndex - 1 = 0], with reward 1.  Its
    target is bootstrapped from the target network's value 2: [1 + 0.9 * 2],
    not [1 + 0.9 * 0 = 1].  The bootstrap value 0 goes to index
    [pending.size() - 1 = 2], a stale transition that was not terminal. *)
Theorem terminal_transition_target_is_bootstrapped :
  pendingIndex w4 - 1 = 0 /\
  wrap (Z.of_nat (length (pending w4)) - 1) = 2 /\
  (exists vs,
      code_flush_visits true w4 s4 = Done vs /\
      v_target <$> vs
      = [(1 + 0.9 * 2)%float; (1 + 0.9 * 2)%float; (1 + 0.9 * 0)%float]) /\
  (exists vs,
      spec_flush_visits true w4 s4 = Done vs /\
      v_target <$> vs = [(1 + 0.9 * 0)%float]) /\
  (1 + 0.9 * 0)%float = 1%float /\
  (1 + 0.9 * 2)%float <> 1%float.
Proof.
  split; [reflexivity|]. split; [reflexivity|]. split; [|split; [|split]].
  - eexists. split; vm_compute; reflexivity.
  - eexists. split; vm_compute; reflexivity.
  - reflexivity.
  - intros H. apply (f_equal (PrimFloat.ltb 1)) in H. vm_compute in H. discriminate.
Qed.


(** ** The theorems at concrete workers *)

(** [w0] ends its episode because the environment says so; [w_limit], far from
    the goal with a step limit of 2, ends it at its second call. *)
Lemma Step_terminal_iff_env_or_StepLimit_witness :
  (exists w' s',
      Step w0 s0 = Done (true, w', s') /\
      IsTerminal (env_answer w0 s0).2 (env_answer w0 s0).1.2 = true) /\
  (exists w' s',
      Step w_limit s0 = Done (false, w', s') /\
      episode_steps w_limit 1 w' /\
      1 < StepLimit (config w_limit) /\
      steps w' = 1 /\
      exists w'' s'', Step w' s' = Done (true, w'', s'')).
Proof.
  split.
  - destruct (Step w0 s0) as [[[b w'] s']|f] eqn:HS;
      [|vm_compute in HS; discriminate].
    pose proof (proj1 Step_terminal_iff_env_or_StepLimit w0 s0 b w' s' HS) as Hb.
    assert (b = true) as -> by (apply Hb; left; reflexivity).
    exists w', s'. split; reflexivity.
  - destruct (Step w_limit s0) as [[[b w'] s']|f] eqn:HS;
      [|vm_compute in HS; discriminate].
    assert (b = false) as -> by (vm_compute in HS; congruence).
    assert (episode_steps w_limit 1 w') as Hrun
      by (eapply episode_Step; [apply episode_start | exact HS]).
    destruct (proj2 Step_terminal_iff_env_or_StepLimit w_limit 1%nat w'
                eq_refl ltac:(vm_compute; split; reflexivity) Hrun)
      as (Hlt & Hk & Hlast).
    exists w', s'. split; [reflexivity|]. split; [exact Hrun|].
    split; [exact Hlt|]. split; [exact Hk|].
    destruct (Step w' s') as [[[b w''] s'']|f] eqn:HS';
      [|vm_compute in HS; injection HS as <- <-; vm_compute in HS'; discriminate].
    rewrite (Hlast s' b w'' s'' HS' eq_refl). eauto.
Defined.

(** [w_far] after one call: the index is 1, within the capacity of 3. *)
Lemma pendingIndex_within_UpdateInterval_witness :
  buffer_ok w_far /\
  exists w' s',
    Step w_far s0 = Done (false, w', s') /\
    reachable w_far w' /\
    0 <= pendingIndex w' < UpdateInterval (config w') /\
    Step w' s' <> Undefined PendingOutOfRange.
Proof.
  assert (buffer_ok w_far) as Hok by (vm_compute; repeat split; congruence).
  split; [exact Hok|].
  destruct (Step w_far s0) as [[[b w'] s']|f] eqn:HS;
    [|vm_compute in HS; discriminate].
  assert (b = false) as -> by (vm_compute in HS; congruence).
  assert (reachable w_far w') as Hr
    by (eapply reach_Step; [apply reach_start | exact HS]).
  destruct (pendingIndex_within_UpdateInterval w_far w' s' Hok Hr)
    as (Hpi & Hsafe & _).
  exists w', s'. auto.
Defined.

(** [w_det] evaluates one step and leaves the shared objects alone. *)
Lemma Step_deterministic_mode_witness :
  deterministic w_det = true /\
  exists b w' s',
    Step w_det s0 = Done (b, w', s') /\
    pending w' = pending w_det /\
    learningNetwork s' = learningNetwork s0 /\
    targetNetwork s' = targetNetwork s0 /\
    totalSteps s' = totalSteps s0 /\
    policy s' = policy s0.
Proof.
  split; [reflexivity|].
  destruct (Step_deterministic_mode w_det s0 eq_refl)
    as (b & w' & s' & HS & _ & Hp & _ & Hl & Ht & Hn & Hpo & _).
  exists b, w', s'. auto 10.
Defined.

(** Three calls of two workers, two of them in stochastic mode: the counter
    goes from 0 to 2. *)
Lemma totalSteps_counts_stochastic_calls_witness :
  (exists b w' s', Step w0 s0 = Done (b, w', s') /\ totalSteps s' = 1) /\
  (exists sys',
      sys_run [0; 1; 0]%nat two_workers = Done sys' /\
      stochastic_calls (workers two_workers) [0; 1; 0]%nat = 2%nat /\
      totalSteps (shared sys') = 2).
Proof.
  split.
  - destruct (Step w0 s0) as [[[b w'] s']|f] eqn:HS;
      [|vm_compute in HS; discriminate].
    exists b, w', s'. split; [reflexivity|].
    exact (proj1 totalSteps_counts_stochastic_calls w0 s0 b w' s' HS).
  - destruct (sys_run [0; 1; 0]%nat two_workers) as [sys'|f] eqn:HR;
      [|vm_compute in HR; discriminate].
    exists sys'. split; [reflexivity|]. split; [reflexivity|].
    apply (proj2 totalSteps_counts_stochastic_calls [0; 1; 0]%nat two_workers sys'
             ltac:(vm_compute; split; congruence) HR).
    reflexivity.
Defined.

(** [w0] ends its episode with a return of 1; [w_far_det] does not end its
    episode and leaves [totalReward] alone. *)
Lemma totalReward_written_only_at_episode_end_witness :
  (exists w' s',
      Step w0 s0 = Done (true, w', s') /\ totalReward s' = (0 + 1)%float) /\
  (exists w' s',
      Step w_far_det s0 = Done (false, w', s') /\ totalReward s' = totalReward s0).
Proof.
  split.
  - destruct (Step w0 s0) as [[[b w'] s']|f] eqn:HS;
      [|vm_compute in HS; discriminate].
    assert (b = true) as -> by (vm_compute in HS; congruence).
    exists w', s'. split; [reflexivity|].
    exact (proj2 (totalReward_written_only_at_episode_end w0 s0 true w' s' HS)
             eq_refl).
  - destruct (Step w_far_det s0) as [[[b w'] s']|f] eqn:HS;
      [|vm_compute in HS; discriminate].
    assert (b = false) as -> by (vm_compute in HS; congruence).
    exists w', s'. split; [reflexivity|].
    exact (proj1 (totalReward_written_only_at_episode_end w_far_det s0 false w' s' HS)
             eq_refl).
Defined.

(** With an interval of 1 the statement at lines 245-250 copies whatever the
    counter is; [w_sync] reaches it with the counter at 1, its own increment,
    though other workers may have changed everything else in between; with an
    interval of 2, the second call in stochastic mode of a run of whole calls
    syncs the target network. *)
Lemma target_network_synced_at_multiples_witness :
  (exists f' s',
      step (at_point AtSync (enter (interact w_sync s0).1.1 w_sync)) s0
      = Done (f', s') /\
      targetNetwork s' = learningNetwork s0) /\
  (exists b f' s' f2 s2 f3 s3,
      call_steps (fun x y => totalSteps y = totalSteps x)
        (enter (interact w_sync s0).1.1 (interact w_sync s0).1.2)
        (interact w_sync s0).2 f' s' /\
      pc f' = Returned b /\
      pc f2 = AtSync /\ step f2 s2 = Done (f3, s3) /\
      totalSteps s2 = 1 /\ targetNetwork s3 = learningNetwork s2) /\
  (exists b w' s',
      Step w_sync s0 = Done (b, w', s') /\
      totalSteps s' mod TargetNetworkSyncInterval (config w_sync) = 0 /\
      targetNetwork s' = learningNetwork s') /\
  (exists sys',
      sys_run [0; 1; 0]%nat two_workers = Done sys' /\
      totalSteps (shared sys') = 2 /\
      targetNetwork (shared sys') = learningNetwork (shared sys')).
Proof.
  split; [|split; [|split]].
  - destruct (step (at_point AtSync (enter (interact w_sync s0).1.1 w_sync)) s0)
      as [[f' s']|e] eqn:Hs; [|vm_compute in Hs; discriminate].
    destruct (proj1 (proj1 target_network_synced_at_multiples _ _ _ _ Hs) eq_refl)
      as (_ & _ & Ht).
    exists f', s'. split; [reflexivity | exact Ht].
  - destruct (run_call 10 (enter (interact w_sync s0).1.1 (interact w_sync s0).1.2)
                (interact w_sync s0).2) as [cs|e] eqn:Hrun;
      [|vm_compute in Hrun; discriminate].
    destruct (run_call_call_steps (fun x y => totalSteps y = totalSteps x)
                _ _ _ _ Hrun) as (f' & s' & Hlast & Hcall).
    assert (pc f' = Returned true) as Hret.
    { vm_compute in Hrun. injection Hrun as <-.
      vm_compute in Hlast. injection Hlast as <- _. reflexivity. }
    destruct (proj1 (proj2 target_network_synced_at_multiples)
                (fun x y => totalSteps y = totalSteps x) _ _ _ f' s' true
                (fun x y H => H) Hcall Hret)
      as (f2 & s2 & f3 & s3 & _ & Hp & Hs & _ & Hn & _ & Ht).
    exists true, f', s', f2, s2, f3, s3. auto 10.
  - destruct (Step w_sync s0) as [[[b w'] s']|f] eqn:HS;
      [|vm_compute in HS; discriminate].
    destruct (proj1 (proj2 (proj2 target_network_synced_at_multiples))
                w_sync s0 b w' s' HS eq_refl)
      as (i & x1 & y1 & x2 & y2 & _ & _ & _ & Hn & Ht).
    exists b, w', s'. split; [reflexivity|].
    rewrite Hn in Ht |- *. split; [reflexivity | exact Ht].
  - destruct (sys_run [0; 1; 0]%nat two_workers) as [sys'|f] eqn:HR;
      [|vm_compute in HR; discriminate].
    exists sys'. split; [reflexivity|].
    apply (proj2 (proj2 (proj2 target_network_synced_at_multiples))
             2 [0; 1; 0]%nat two_workers sys');
      [vm_compute; split; reflexivity | repeat constructor
      | reflexivity | reflexivity | exact HR].
Defined.

(** Three workers with an interval of 2 and the counter at 0; the learning
    network is (0, 0), the target network (2, 2), and no call flushes.
    Workers 0 and 1 interact and increment the counter: the increment of
    worker 1 takes it to 2.  Worker 2 interacts and increments it to 3 before
    worker 1 reaches its test.  Worker 1 stores its transition, reaches the
    test, reads 3 and does not copy: the target network stays (2, 2).  The
    three calls return with the counter at 3 and the target network still
    (2, 2), not (0, 0): the counter has passed the multiple 2 and no call has
    synced. *)
Lemma sync_missed_when_calls_overlap :
  exists t1 t2 t3 t4 f,
    threads_run [0; 0; 1; 1]%nat three_workers = Done t1 /\
    totalSteps (world t1) = 2 /\
    2 mod TargetNetworkSyncInterval (config w_two_far) = 0 /\
    threads_run [2; 2; 1; 1]%nat t1 = Done t2 /\
    threads t2 !! 1%nat = Some (Running f) /\ pc f = AtSync /\
    totalSteps (world t2) = 3 /\
    thread_step 1 t2 = Done t3 /\
    targetNetwork (world t3) = (2%float, 2%float) /\
    learningNetwork (world t3) = (0%float, 0%float) /\
    targetNetwork (world t3) <> learningNetwork (world t3) /\
    threads_run [1; 1; 0; 0; 0; 0; 0; 2; 2; 2; 2; 2]%nat t3 = Done t4 /\
    Forall (fun th => match th with Idle _ => True | Running _ => False end)
      (threads t4) /\
    totalSteps (world t4) = 3 /\
    targetNetwork (world t4) = (2%float, 2%float) /\
    learningNetwork (world t4) = (0%float, 0%float) /\
    targetNetwork (world t4) <> learningNetwork (world t4).
Proof.
  eexists _, _, _, _, _.
  split; [vm_compute; reflexivity|]. split; [reflexivity|]. split; [reflexivity|].
  split; [vm_compute; reflexivity|]. split; [reflexivity|]. split; [reflexivity|].
  split; [reflexivity|]. split; [vm_compute; reflexivity|].
  split; [reflexivity|]. split; [reflexivity|].
  split; [intros H; apply (f_equal snd) in H; apply (f_equal (PrimFloat.ltb 1)) in H;
          vm_compute in H; discriminate|].
  split; [vm_compute; reflexivity|].
  split; [repeat constructor|]. split; [reflexivity|]. split; [reflexivity|].
  split; [reflexivity|].
  intros H. apply (f_equal snd) in H. apply (f_equal (PrimFloat.ltb 1)) in H.
  vm_compute in H. discriminate.
Qed.

(** [w_sync] flushes and syncs in its first call.  Its statements run in the
    order of the source; the target network receives the updated parameters,
    and the exploration rate is annealed once, after the copy. *)
Lemma flush_then_sync_then_anneal_witness :
  deterministic w_sync = false /\
  exists w' s' cs,
    Step w_sync s0 = Done (true, w', s') /\
    Step_points w_sync s0 = Done cs /\
    (fun c => pc c.1) <$> cs
    = [AtCount; AtStore; AtFlushTest; AtGradients; AtUpdate; AtRefresh; AtClear;
       AtSync; AtAnneal; AtEnd; Returned true] /\
    targetNetwork s' = learningNetwork s' /\
    learningNetwork s'
    = ((0.5 * ((1 + 0.9 * 2) + (0 + 0.9 * 2)))%float, 0%float) /\
    network w' = learningNetwork s' /\
    policy s' = (0.1 * 0.5)%float.
Proof.
  split; [reflexivity|].
  destruct (Step w_sync s0) as [[[b w'] s']|f] eqn:HS;
    [|vm_compute in HS; discriminate].
  assert (b = true) as -> by (vm_compute in HS; congruence).
  destruct (flush_then_sync_then_anneal w_sync s0 true w' s' HS eq_refl)
    as (i & x1 & y1 & Hbf & Hboth).
  vm_compute in Hbf. injection Hbf as <- <- <-.
  destruct (Hboth eq_refl eq_refl)
    as (T & net & tnet & early & c1 & c2 & c3 & c4 & c5 & c6 & Hloop & Hrun & Hearly
        & _ & (Hp1 & _) & (Hp2 & _) & (Hp3 & _) & (Hp4 & _) & (Hp5 & _) & (Hp6 & _)
        & Ht & Hl & Hn & Hp).
  vm_compute in Hloop. injection Hloop as <- _ _.
  exists w', s', (early ++ [c1; c2; c3; c4; c5; c6]).
  split; [reflexivity|]. split; [exact Hrun|].
  split; [rewrite fmap_app, Hearly; cbn [fmap list_fmap fst];
          rewrite Hp1, Hp2, Hp3, Hp4, Hp5, Hp6; reflexivity|].
  rewrite Ht, Hl, Hn, Hp. repeat split; vm_compute; reflexivity.
Defined.

(** ** The further properties at concrete workers *)

(** A NaN is below nothing and nothing is below it. *)
Lemma float_nan_unordered (y : float) :
  PrimFloat.ltb nan y = false /\ PrimFloat.ltb y nan = false.
Proof.
  rewrite !ltb_spec. unfold SFltb, SFcompare.
  change (Prim2SF nan) with S754_nan.
  split; [reflexivity|]. now destruct (Prim2SF y).
Qed.

(** The first two calls of [w_far], neither of which ends the episode or fills
    the buffer. *)
Lemma w_far_two_calls :
  Step w_far s0 = Done (false, w_far1, s_far1) /\
  Step w_far1 s_far1 = Done (false, w_far2, s_far2).
Proof. split; vm_compute; reflexivity. Qed.


(** A worker whose buffer has no capacity writes past it at its first call. *)
Lemma Step_PendingOutOfRange_iff_witness :
  Step w_no_buffer s0 = Undefined PendingOutOfRange.
Proof.
  apply (proj2 (Step_PendingOutOfRange_iff w_no_buffer s0)).
  split; [reflexivity | vm_compute; intros [_ H]; discriminate].
Defined.

(** With a step limit of 0, [w_no_limit], far from the goal, ends its episode
    at its first call. *)
Lemma StepLimit_zero_ends_every_episode_witness :
  exists w' s', Step w_no_limit s0 = Done (true, w', s').
Proof.
  destruct (Step w_no_limit s0) as [[[b w'] s']|f] eqn:HS;
    [|vm_compute in HS; discriminate].
  rewrite (StepLimit_zero_ends_every_episode w_no_limit s0 b w' s' eq_refl HS).
  eauto.
Defined.


(** [w_far] after two calls has the configuration, the mode and the capacity
    it started with. *)
Lemma Step_never_reconfigures_witness :
  reachable w_far w_far2 /\
  config w_far2 = cfg /\ deterministic w_far2 = false /\
  length (pending w_far2) = 3%nat.
Proof.
  assert (reachable w_far w_far2) as Hr.
  { apply (reach_Step w_far w_far1 s_far1 false w_far2 s_far2);
      [|apply w_far_two_calls].
    apply (reach_Step w_far w_far s0 false w_far1 s_far1);
      [apply reach_start | apply w_far_two_calls]. }
  split; [exact Hr|].
  exact (Step_never_reconfigures w_far w_far2 Hr).
Defined.



(** Two steps of [w_far], each with reward 1: the return is [(0 + 1) + 1]. *)
Lemma episodeReturn_is_running_sum_witness :
  episode_rewards w_far [1%float; 1%float] w_far2 /\
  episodeReturn w_far2 = (0 + 1 + 1)%float.
Proof.
  assert (episode_rewards w_far [1%float; 1%float] w_far2) as Hrun.
  { change (episode_rewards w_far
              (([] ++ [(env_answer w_far s0).1.1])
               ++ [(env_answer w_far1 s_far1).1.1]) w_far2).
    apply (rewards_Step w_far _ w_far1 s_far1 w_far2 s_far2);
      [|apply w_far_two_calls].
    apply (rewards_Step w_far [] w_far s0 w_far1 s_far1);
      [apply rewards_start | apply w_far_two_calls]. }
  split; [exact Hrun|].
  exact (proj1 (episodeReturn_is_running_sum w_far _ w_far2 Hrun)).
Defined.

(** The second call of [w_far] acts from cell 1 with the action its first call
    pre-selected. *)
Lemma next_call_takes_preselected_action_witness :
  begin_episode w_far1 s_far1 = (w_far1, s_far1) /\
  tr_state (stored_transition w_far1 s_far1) = 1%float /\
  tr_action (stored_transition w_far1 s_far1) = 0%nat.
Proof.
  destruct (next_call_takes_preselected_action w_far s0 w_far1 s_far1 s_far1
              (proj1 w_far_two_calls) ltac:(vm_compute; lia))
    as (Hbe & _ & Hst & Hac).
  split; [exact Hbe|]. split; [exact Hst | exact Hac].
Defined.

(** After two calls of [w_far] the buffer starts with their two
    transitions. *)
Lemma pending_holds_the_stored_transitions_witness :
  buffered w_far [stored_transition w_far s0; stored_transition w_far1 s_far1]
    w_far2 /\
  pendingIndex w_far2 = 2 /\
  take 2 (pending w_far2)
  = [stored_transition w_far s0; stored_transition w_far1 s_far1].
Proof.
  assert (buffered w_far
            [stored_transition w_far s0; stored_transition w_far1 s_far1]
            w_far2) as Hrun.
  { apply (buffered_Step w_far [stored_transition w_far s0]
             w_far1 s_far1 w_far2 s_far2);
      [|reflexivity | apply w_far_two_calls | vm_compute; reflexivity].
    apply (buffered_Step w_far [] w_far s0 w_far1 s_far1);
      [apply buffered_start | reflexivity | apply w_far_two_calls
      | vm_compute; reflexivity]. }
  split; [exact Hrun|].
  exact (pending_holds_the_stored_transitions w_far _ w_far2 eq_refl
           ltac:(vm_compute; reflexivity) Hrun).
Defined.

(** The third call of [w_far] fills the buffer: the flush visits indices 0, 1
    and 2, the three buffered transitions. *)
Lemma full_buffer_flush_visits_the_buffered_witness :
  exists b w' s' i w1 s1 vs,
    Step w_far2 s_far2 = Done (b, w', s') /\
    before_flush w_far2 s_far2 = Done (i, w1, s1) /\
    pendingIndex w1 = 3 /\
    code_flush_visits (terminal i) w1 s1 = Done vs /\
    v_index <$> vs = [0; 1; 2].
Proof.
  destruct (Step w_far2 s_far2) as [[[b w'] s']|f] eqn:HS;
    [|vm_compute in HS; discriminate].
  destruct (full_buffer_flush_visits_the_buffered w_far2 s_far2 b w' s'
              ltac:(vm_compute; repeat split; congruence) eq_refl
              ltac:(vm_compute; reflexivity) HS)
    as (i & w1 & s1 & vs & Hbf & _ & Hfull & Hvs & Hidx & _).
  exists b, w', s', i, w1, s1, vs.
  split; [reflexivity|]. split; [exact Hbf|].
  assert (pendingIndex w1 = 3) as Hpi.
  { vm_compute in Hbf. injection Hbf as _ <- _. reflexivity. }
  split; [exact Hpi|]. split; [exact Hvs|].
  rewrite Hidx, Hpi. reflexivity.
Defined.

(** Two of three calls are in stochastic mode: the exploration rate 0.1 is
    halved twice. *)
Lemma policy_annealed_once_per_stochastic_call_witness :
  exists sys',
    sys_run [0; 1; 0]%nat two_workers = Done sys' /\
    policy (shared sys') = (0.1 * 0.5 * 0.5)%float.
Proof.
  destruct (sys_run [0; 1; 0]%nat two_workers) as [sys'|f] eqn:HR;
    [|vm_compute in HR; discriminate].
  exists sys'. split; [reflexivity|].
  exact (policy_annealed_once_per_stochastic_call [0; 1; 0]%nat two_workers sys' HR).
Defined.

(** Two calls of the evaluating worker leave what the workers share alone. *)
Lemma evaluation_leaves_training_state_witness :
  exists sys',
    sys_run [1; 1]%nat two_workers = Done sys' /\
    learningNetwork (shared sys') = learningNetwork s0 /\
    targetNetwork (shared sys') = targetNetwork s0 /\
    totalSteps (shared sys') = 0 /\
    policy (shared sys') = policy s0.
Proof.
  destruct (sys_run [1; 1]%nat two_workers) as [sys'|f] eqn:HR;
    [|vm_compute in HR; discriminate].
  exists sys'. split; [reflexivity|].
  exact (evaluation_leaves_training_state [1; 1]%nat two_workers sys' eq_refl HR).
Defined.

(** With a limit of 100: 250 is clamped to 100, -250 to -100, 7 is left
    alone. *)
Lemma clamp_saturates_witness :
  clamp 100%float 250%float = 100%float /\
  clamp 100%float (-250)%float = (-100)%float /\
  clamp 100%float 7%float = 7%float /\
  clamp 100%float (clamp 100%float 250%float) = clamp 100%float 250%float.
Proof.
  split; [|split; [|split]].
  - apply (@clamp_saturates float float_Double 100%float 250%float
             float_ltb_irrefl eq_refl);
      reflexivity.
  - apply (@clamp_saturates float float_Double 100%float (-250)%float
             float_ltb_irrefl eq_refl);
      reflexivity.
  - apply (@clamp_saturates float float_Double 100%float 7%float
             float_ltb_irrefl eq_refl);
      reflexivity.
  - apply (@clamp_saturates float float_Double 100%float 250%float
             float_ltb_irrefl eq_refl).
Defined.

(** A NaN in the summed gradient is handed to the optimizer. *)
Lemma clamp_passes_unordered_witness :
  clamp 100%float nan = nan /\
  mem (mat_transform (clamp 100%float) (Mat 2 1 [1%float; nan])) !! 1%nat
  = Some nan.
Proof.
  destruct (@clamp_passes_unordered float float_Double 100%float nan
              (Mat 2 1 [1%float; nan]) 1 float_nan_unordered) as [Hc Hm].
  split; [exact Hc | exact (Hm eq_refl)].
Defined.

(** The flush of [w1]: the gradient handed over is 2 by 1, as the
    parameters. *)
Lemma flush_gradient_has_parameters_shape_witness :
  exists w' s' vs G,
    flush true w1 s1 = Done (w', s') /\
    code_flush_visits true w1 s1 = Done vs /\
    n_rows G = 2%nat /\ n_cols G = 1%nat /\ mat_wf G /\
    learningNetwork s'
    = set_Parameters (learningNetwork s1)
        (Update tt (Parameters (learningNetwork s1)) 0.5%float G).1.
Proof.
  destruct (flush true w1 s1) as [[w' s']|f] eqn:Hf;
    [|vm_compute in Hf; discriminate].
  destruct (flush_gradient_has_parameters_shape true w1 s1 w' s' Hf)
    as (vs & G & Hv & Hl & Hr & Hc & _ & Hwf).
  exists w', s', vs, G.
  split; [reflexivity|]. split; [exact Hv|]. split; [exact Hr|].
  split; [exact Hc|]. split; [|exact Hl].
  apply Hwf. vm_compute in Hv. injection Hv as <-. repeat constructor.
Defined.


(** After its terminal first call, [w0] holds the mark of no action, and its
    next call samples action 0. *)
Lemma ended_episode_samples_first_action_witness :
  exists w' s',
    Step w0 s0 = Done (true, w', s') /\
    action w' = 2%nat /\ action (begin_episode w' s').1 = 0%nat.
Proof.
  destruct (Step w0 s0) as [[[b w'] s']|f] eqn:HS;
    [|vm_compute in HS; discriminate].
  assert (b = true) as -> by (vm_compute in HS; congruence).
  destruct (ended_episode_samples_first_action w0 s0 w' s' s' HS)
    as (Ha & Hs & _).
  exists w', s'. split; [reflexivity|]. split; [exact Ha|].
  rewrite Hs. vm_compute in HS. injection HS as <- <-. reflexivity.
Defined.

(** A full buffer at a terminal step, the gradients of action 0 being -0.8,
    -0.8 and 1.  With a limit of 0.7 their sum, -0.6, reaches the optimizer as
    it is (clamping each gradient first would give -0.7); with a limit of 0.5
    the sum is replaced by -0.5. *)
Lemma flush_gradient_is_saturated_sum_witness :
  let x := (0 + (2 - (1 + 0.9 * 2)) + (2 - (1 + 0.9 * 2)) + (2 - (1 + 0.9 * 0)))%float in
  (exists w' s' vs T,
      flush true (w_full 0.7) s_full = Done (w', s') /\
      code_flush_visits true (w_full 0.7) s_full = Done vs /\
      v_index <$> vs = [0; 1; 2] /\
      mat_sum (mat_zeros 2 1) (v_gradient <$> vs) = Done T /\
      mem T !! 0%nat = Some x /\
      PrimFloat.ltb x (-0.7)%float = false /\ PrimFloat.ltb 0.7%float x = false /\
      learningNetwork s' = ((2 - 0.5 * x)%float, (0 - 0.5 * (0 + 0 + 0 + 0))%float)) /\
  (exists w' s',
      flush true (w_full 0.5) s_full = Done (w', s') /\
      PrimFloat.ltb x (-0.5)%float = true /\
      learningNetwork s'
      = ((2 - 0.5 * (-0.5))%float, (0 - 0.5 * (0 + 0 + 0 + 0))%float)).
Proof.
  cbv zeta. split.
  - destruct (flush true (w_full 0.7) s_full) as [[w' s']|e] eqn:Hf;
      [|vm_compute in Hf; discriminate].
    destruct (flush_gradient_is_saturated_sum true (w_full 0.7) s_full w' s' Hf)
      as (vs & T & Hv & Hi & Hsum & _ & _ & Hl & Hj).
    exists w', s', vs, T. split; [reflexivity|]. split; [exact Hv|].
    split; [exact Hi|]. split; [exact Hsum|].
    vm_compute in Hv. injection Hv as <-.
    split; [rewrite Hj; [reflexivity | repeat constructor | vm_compute; lia]|].
    vm_compute in Hsum. injection Hsum as <-.
    split; [reflexivity|]. split; [reflexivity|].
    rewrite Hl. vm_compute. reflexivity.
  - destruct (flush true (w_full 0.5) s_full) as [[w' s']|e] eqn:Hf;
      [|vm_compute in Hf; discriminate].
    destruct (flush_gradient_is_saturated_sum true (w_full 0.5) s_full w' s' Hf)
      as (vs & T & Hv & _ & Hsum & _ & _ & Hl & _).
    vm_compute in Hv. injection Hv as <-.
    vm_compute in Hsum. injection Hsum as <-.
    exists w', s'. split; [reflexivity|]. split; [reflexivity|].
    rewrite Hl. vm_compute. reflexivity.
Defined.
